(** * InvoiceIQ Python SDK: the job poller and the response contract

    A shallow embedding of [invoiceiq/client.py] and of the records of
    [invoiceiq/models.py] it uses, followed by the properties of
    [wait_for_job], [_handle] and the typed fetch operations.

    Conventions of the embedding.
    - Python [float] is IEEE 754 binary64: Rocq's primitive [float], with
      [+], [*] and [<] as the hardware computes them.
    - Python [str] is [string], the UTF-8 bytes of the text. [str.upper] is
      a parameter of the poller, so that what is proved of it holds for
      Python's Unicode-aware function; [upper], on ASCII letters, stands
      for it in concrete runs, whose strings are ASCII.
    - The outside world (the clock, [time.sleep], the HTTP transport and
      the caller's [fetch_fn]) is an abstract state [W] threaded through
      every call; the poller also returns the list of the calls it made. *)

From Stdlib Require Import String Ascii List ZArith Bool Lia DecimalString.
From Stdlib Require Import PrimFloat.
Import ListNotations.
Open Scope string_scope.

Set Implicit Arguments.
Set Warnings "-register-all,-inexact-float".

(** ** Strings *)

(** [str.upper] on one ASCII character. *)
Definition upper_ascii (c : ascii) : ascii :=
  let n := nat_of_ascii c in
  if (97 <=? n)%nat && (n <=? 122)%nat then ascii_of_nat (n - 32) else c.

(** [s.upper()] for an ASCII string [s]. *)
Fixpoint upper (s : string) : string :=
  match s with
  | EmptyString => EmptyString
  | String c s' => String (upper_ascii c) (upper s')
  end.

(** [sub in s] on strings: [sub] occurs in [s] as a contiguous run. *)
Fixpoint str_in (sub s : string) : bool :=
  String.prefix sub s ||
  match s with
  | EmptyString => false
  | String _ s' => str_in sub s'
  end.

(** [str(n)] for an [int]. *)
Definition str_of_int (z : Z) : string := NilZero.string_of_int (Z.to_int z).

(** ** Python values, as [resp.json()] decodes them *)

Inductive pyvalue : Type :=
| PNone
| PBool (b : bool)
| PInt (z : Z)
| PFloat (f : float)
| PStr (s : string)
| PList (l : list pyvalue)
| PDict (kvs : list (string * pyvalue)).

(** [bool(v)]: what [or] tests. *)
Definition truthy (v : pyvalue) : bool :=
  match v with
  | PNone => false
  | PBool b => b
  | PInt z => negb (z =? 0)%Z
  | PFloat f => negb (PrimFloat.eqb f 0)
  | PStr s => negb (s =? "")
  | PList l => match l with [] => false | _ => true end
  | PDict kvs => match kvs with [] => false | _ => true end
  end.

(** [a or b]. *)
Definition py_or (a b : pyvalue) : pyvalue := if truthy a then a else b.

(** [d.get(key)] on a decoded object: the bound value, else [None]. *)
Fixpoint dict_get (kvs : list (string * pyvalue)) (key : string) : pyvalue :=
  match kvs with
  | [] => PNone
  | (k, v) :: rest => if k =? key then v else dict_get rest key
  end.

(** ** The HTTP response, through the interface the client reads *)

Record Response : Type := {
  status_code : Z;
  headers : string -> option string;   (* resp.headers.get(name) *)
  text : string;                        (* resp.text *)
  content : list Byte.byte;             (* resp.content *)
  json : option pyvalue                 (* resp.json(); None: it raises *)
}.

(** ** Exceptions *)

Inductive exn : Type :=
| ApiError (status_code : Z) (message : pyvalue) (response : option Response)
| TimeoutError (message : string)
| OtherError (name : string).          (* any other exception of a callee *)

Inductive result (A : Type) : Type :=
| Ok (a : A)
| Raise (e : exn).
Arguments Ok {A} a.
Arguments Raise {A} e.

(** [e.status_code], on an [ApiError]. *)
Definition exn_status_code (e : exn) : option Z :=
  match e with
  | ApiError c _ _ => Some c
  | _ => None
  end.

(** [e.response], on an [ApiError]. *)
Definition exn_response (e : exn) : option Response :=
  match e with
  | ApiError _ _ r => r
  | _ => None
  end.

(** The [message] argument the [ApiError] was built with. *)
Definition exn_message (e : exn) : option pyvalue :=
  match e with
  | ApiError _ m _ => Some m
  | TimeoutError m => Some (PStr m)
  | OtherError _ => None
  end.

(** [str(e)] for [ApiError(status_code, message)] with a [str] message:
    the text [ApiError.__init__] hands to [Exception]. *)
Definition ApiError_str (status_code : Z) (message : string) : string :=
  "HTTP " ++ str_of_int status_code ++ ": " ++ message.

Definition is_ApiError (e : exn) : bool :=
  match e with ApiError _ _ _ => true | _ => false end.

Definition is_TimeoutError (e : exn) : bool :=
  match e with TimeoutError _ => true | _ => false end.

(** ** models.py *)

Record Job : Type := {
  id : string;
  status : string;
  downloadUrl : option string;
  reportDownloadUrl : option string
}.

Record ValidationReport : Type := {
  transformation : option string;
  finalScore : option float;
  profile : option string;
  issues : option (list pyvalue)
}.

(** ** client.py: [_handle] *)

(** What [_handle] returns: a decoded JSON structure or the raw bytes. *)
Inductive decoded : Type :=
| Json (data : pyvalue)
| Bytes (data : list Byte.byte).

(** The message [_handle] extracts from a failed response. A decoded body
    that is not an object has no [get]: the [except] branch takes over. *)
Definition error_message (resp : Response) : pyvalue :=
  match json resp with
  | Some (PDict data) =>
      py_or (py_or (dict_get data "message") (dict_get data "error"))
            (PStr (text resp))
  | _ => PStr (text resp)
  end.

(** [resp.headers.get("content-type", "")] *)
Definition content_type (resp : Response) : string :=
  match headers resp "content-type" with
  | Some v => v
  | None => ""
  end.

Definition _handle (resp : Response) : result decoded :=
  if (400 <=? status_code resp)%Z then
    Raise (ApiError (status_code resp) (error_message resp) (Some resp))
  else
    let ctype := content_type resp in
    if str_in "application/json" ctype then
      match json resp with
      | Some data => Ok (Json data)
      | None => Raise (OtherError "JSONDecodeError")
      end
    else Ok (Bytes (content resp)).

(** *** The request records of models.py *)

Record Address : Type := {
  line1 : option string;
  line2 : option string;
  postCode : option string;
  city : option string;
  address_countryCode : option string
}.

Record Party : Type := {
  party_name : string;
  registrationId : option string;
  vatId : option string;
  party_countryCode : option string;
  address : option Address
}.

Record LogoOptions : Type := {
  url : option string;
  width : option Z;
  align : option string          (* pattern ^(left|center|right)$ *)
}.

Record FooterOptions : Type := {
  extraText : option string;
  showPageNumbers : option bool
}.

Record RenderingOptions : Type := {
  template : option string;
  font : option string;
  primaryColor : option string;
  accentColor : option string;
  logo : option LogoOptions;
  footer : option FooterOptions;
  notes : option string;
  locale : option string
}.

Record InvoiceLine : Type := {
  line_id : option string;
  line_name : string;
  description : option string;
  quantity : float;
  unitCode : option string;            (* default "C62" *)
  netPrice : option float;
  unitPrice : option float;
  line_taxRate : option float;
  line_taxCategoryCode : option string; (* default "S" *)
  line_taxExemptionReason : option string;
  totalAmount : float
}.

Record TaxSummary : Type := {
  taxRate : option float;
  basisAmount : option float;
  taxableAmount : option float;
  taxAmount : option float;
  taxCategoryCode : option string;     (* default "S" *)
  taxExemptionReason : option string
}.

Record TransformationMetadata : Type := {
  invoiceNumber : string;
  issueDate : string;
  currency : option string;            (* default "EUR" *)
  typeCode : option string;            (* default "380" *)
  seller : Party;
  buyer : Party;
  lines : option (list InvoiceLine);
  taxes : option (list TaxSummary);
  taxSummaries : option (list TaxSummary);
  totalTaxExclusiveAmount : float;
  taxTotalAmount : float;
  totalTaxInclusiveAmount : float;
  purchaseOrderReference : option string;
  rendering : option RenderingOptions
}.

(** ** The outside world and the poller's monad *)

(** One call the poller makes to the outside, with what it got back. *)
Inductive event : Type :=
| EvTime (now : float)                        (* time.time() *)
| EvFetch (job_id : string) (r : result Job)  (* fetch_fn(job_id) *)
| EvSleep (seconds : float) (r : result unit). (* time.sleep(seconds) *)

Section World.

(** The state of everything outside the client. *)
Variable W : Type.

(** A call to the outside: a value or an exception, and the new world. *)
Definition St (A : Type) : Type := W -> result A * W.

Definition st_ret {A} (a : A) : St A := fun w => (Ok a, w).
Definition st_raise {A} (e : exn) : St A := fun w => (Raise e, w).
Definition st_lift {A} (r : result A) : St A := fun w => (r, w).
Definition st_bind {A B} (m : St A) (k : A -> St B) : St B :=
  fun w => match m w with
           | (Ok a, w1) => k a w1
           | (Raise e, w1) => (Raise e, w1)
           end.

(** The poller's computations: state, exceptions, the log of calls, and
    [None] when the loop is still running as the fuel ends. *)
Definition M (A : Type) : Type := W -> option (result A) * list event * W.

Definition ret {A} (a : A) : M A := fun w => (Some (Ok a), [], w).
Definition raise {A} (e : exn) : M A := fun w => (Some (Raise e), [], w).
Definition out_of_fuel {A} : M A := fun w => (None, [], w).
Definition bind {A B} (m : M A) (k : A -> M B) : M B :=
  fun w => match m w with
           | (Some (Ok a), tr, w1) =>
               let '(r, tr', w2) := k a w1 in (r, (tr ++ tr')%list, w2)
           | (Some (Raise e), tr, w1) => (Some (Raise e), tr, w1)
           | (None, tr, w1) => (None, tr, w1)
           end.

(** Run an outside call and log it. *)
Definition perform {A} (op : St A) (ev : result A -> event) : M A :=
  fun w => let '(r, w1) := op w in (Some r, [ev r], w1).

End World.

Arguments ret {W A} a.
Arguments raise {W A} e.
Arguments out_of_fuel {W A}.
Arguments st_ret {W A} a.
Arguments st_raise {W A} e.
Arguments st_lift {W A} r.

Declare Scope poll_scope.
Delimit Scope poll_scope with poll.
Notation "x <- m ;; k" := (bind m (fun x => k))
  (at level 61, m at next level, right associativity) : poll_scope.
Declare Scope st_scope.
Delimit Scope st_scope with st.
Notation "x <- m ;; k" := (st_bind m (fun x => k))
  (at level 61, m at next level, right associativity) : st_scope.

(** ** client.py: the client, its headers and the typed operations *)

Record InvoiceIQClient : Type := {
  _api_key : option string;
  _bearer : option string;
  _base_url : string
}.

(** [if s:] on an [Optional[str]]. *)
Definition str_truthy (o : option string) : bool :=
  match o with
  | Some s => negb (s =? "")
  | None => false
  end.

Definition str_or_empty (o : option string) : string :=
  match o with Some s => s | None => "" end.

(** [d[k] = v] on a [Dict[str, str]] kept in insertion order. *)
Fixpoint dict_set (d : list (string * string)) (k v : string)
  : list (string * string) :=
  match d with
  | [] => [(k, v)]
  | (k', v') :: rest =>
      if k' =? k then (k, v) :: rest else (k', v') :: dict_set rest k v
  end.

(** [d.update(extra)] *)
Definition dict_update (d extra : list (string * string))
  : list (string * string) :=
  fold_left (fun acc kv => dict_set acc (fst kv) (snd kv)) extra d.

Definition _headers (self : InvoiceIQClient)
    (extra : option (list (string * string))) : list (string * string) :=
  let headers := [] in
  let headers :=
    if str_truthy (_api_key self)
    then dict_set headers "X-API-KEY" (str_or_empty (_api_key self))
    else headers in
  let headers :=
    if str_truthy (_bearer self)
    then dict_set headers "Authorization"
           ("Bearer " ++ str_or_empty (_bearer self))
    else headers in
  match extra with
  | Some (e :: es) => dict_update headers (e :: es)
  | _ => headers
  end.

Section Client.

Variable W : Type.
(** The transport: [self._client.get] and [self._client.post]. *)
Variable client_get : string -> list (string * string) -> St W Response.
Variable client_post :
  string -> list (string * string) ->
  list (string * list Byte.byte) -> list (string * string) -> St W Response.
(** [open(file_path, "rb")], read as the part that is uploaded. *)
Variable open_rb : string -> St W (list Byte.byte).
(** pydantic: [Model.model_validate] and [model.model_dump_json], and
    [json.dumps] of the standard library. *)
Variable Job_model_validate : pyvalue -> result Job.
Variable ValidationReport_model_validate : pyvalue -> result ValidationReport.
Variable model_dump_json : TransformationMetadata -> string.
Variable json_dumps : pyvalue -> result string.

Variable self : InvoiceIQClient.

Definition get_validation_report (validation_id : string)
  : St W ValidationReport :=
  (let url := _base_url self ++ "/v1/validations/" ++ validation_id
                ++ "/report" in
   resp <- client_get url (_headers self None) ;;
   data <- st_lift (_handle resp) ;;
   match data with
   | Bytes _ =>
       st_raise (ApiError 500
         (PStr "Réponse binaire inattendue pour un rapport JSON") None)
   | Json d => st_lift (ValidationReport_model_validate d)
   end)%st.

Definition get_transformation (job_id : string) : St W Job :=
  (let url := _base_url self ++ "/api/v1/transformations/" ++ job_id in
   resp <- client_get url (_headers self None) ;;
   data <- st_lift (_handle resp) ;;
   match data with
   | Bytes _ =>
       st_raise (ApiError 500
         (PStr "Réponse binaire inattendue pour un job JSON") None)
   | Json d => st_lift (Job_model_validate d)
   end)%st.

Definition get_generation (job_id : string) : St W Job :=
  (let url := _base_url self ++ "/api/v1/generations/" ++ job_id in
   resp <- client_get url (_headers self None) ;;
   data <- st_lift (_handle resp) ;;
   match data with
   | Bytes _ =>
       st_raise (ApiError 500
         (PStr "Réponse binaire inattendue pour un job JSON") None)
   | Json d => st_lift (Job_model_validate d)
   end)%st.

(** [metadata] is a model or a plain dict. *)
Definition transform_pdf (file_path : string)
    (metadata : TransformationMetadata + pyvalue)
    (idempotency_key : option string) : St W decoded :=
  (let url := _base_url self ++ "/api/v1/transformations" in
   let headers :=
     _headers self
       (if str_truthy idempotency_key
        then Some [("Idempotency-Key", str_or_empty idempotency_key)]
        else None) in
   metadata_str <- st_lift match metadata with
                           | inl m => Ok (model_dump_json m)
                           | inr d => json_dumps d
                           end ;;
   fp <- open_rb file_path ;;
   resp <- client_post url headers [("file", fp)]
             [("metadata", metadata_str)] ;;
   st_lift (_handle resp))%st.

End Client.

(** ** client.py: [wait_for_job] *)

Section WaitForJob.

Variable W : Type.
(** [time.time()] and [time.sleep(seconds)]. *)
Variable time_time : W -> float * W.
Variable time_sleep : float -> St W unit.
(** [str(x)] of a float, as an f-string renders it. *)
Variable float_str : float -> string.
(** [s.upper()]. *)
Variable str_upper : string -> string.

Definition time : M W float :=
  fun w => let '(now, w1) := time_time w in (Some (Ok now), [EvTime now], w1).
Definition sleep (seconds : float) : M W unit :=
  perform (time_sleep seconds) (EvSleep seconds).
Definition call (fetch_fn : string -> St W Job) (job_id : string) : M W Job :=
  perform (fetch_fn job_id) (EvFetch job_id).

Variable fetch_fn : string -> St W Job.
Variable job_id : string.
Variables interval_seconds max_wait_seconds backoff_factor : float.
Variable completed_status : string.
Variable failed_statuses : list string.

(** [job.status.upper() == completed_status] *)
Definition is_completed (job : Job) : bool :=
  str_upper (status job) =? completed_status.

(** [job.status.upper() in {s.upper() for s in failed_statuses}], for a
    collection that can be iterated again at every round (a tuple, a list,
    a set). *)
Definition is_failed (job : Job) : bool :=
  existsb (String.eqb (str_upper (status job)))
    (map str_upper failed_statuses).

Definition failed_message (job : Job) : string :=
  "Job " ++ job_id ++ " en échec: " ++ status job.

Definition timeout_message : string :=
  "Timeout après " ++ float_str max_wait_seconds
    ++ "s en attendant le job " ++ job_id.

(** The [while True] loop; one unit of fuel per iteration. *)
Fixpoint wait_loop (fuel : nat) (deadline delay : float) : M W Job :=
  match fuel with
  | O => out_of_fuel
  | S fuel' =>
      (job <- call fetch_fn job_id ;;
       if is_completed job then ret job
       else if is_failed job then
         raise (ApiError 500 (PStr (failed_message job)) None)
       else
         now <- time ;;
         if (deadline <? now + delay)%float then
           raise (TimeoutError timeout_message)
         else
           _ <- sleep delay ;;
           wait_loop fuel' deadline (delay * backoff_factor)%float)%poll
  end.

Definition wait_for_job (fuel : nat) : M W Job :=
  (now <- time ;;
   wait_loop fuel (now + max_wait_seconds)%float interval_seconds)%poll.

(** *** What the outside world does during a run *)

(** The world keeps the job pending for [n] rounds from [w]: each fetch
    returns a job that passes neither the completed test nor the failed
    test, each delay fits before the deadline, and each sleep returns.
    Gives the world after these rounds. *)
Fixpoint pending_rounds (n : nat) (deadline delay : float) (w : W)
  : option W :=
  match n with
  | O => Some w
  | S n' =>
      match fetch_fn job_id w with
      | (Ok job, w1) =>
          if is_completed job || is_failed job then None
          else
            let '(now, w2) := time_time w1 in
            if (deadline <? now + delay)%float then None
            else
              match time_sleep delay w2 with
              | (Ok _, w3) =>
                  pending_rounds n' deadline (delay * backoff_factor)%float w3
              | (Raise _, _) => None
              end
      | (Raise _, _) => None
      end
  end.

(** The delay in force after [k] sleeps, starting from [delay]:
    [delay] multiplied [k] times by [backoff_factor]. *)
Definition delay_after (k : nat) (delay : float) : float :=
  Nat.iter k (fun d => (d * backoff_factor)%float) delay.

End WaitForJob.

(** *** Reading a log of calls *)

Inductive call_kind : Type :=
| CTime
| CFetch
| CSleep (seconds : float).

Definition kind_of (ev : event) : call_kind :=
  match ev with
  | EvTime _ => CTime
  | EvFetch _ _ => CFetch
  | EvSleep d _ => CSleep d
  end.

Definition kinds (tr : list event) : list call_kind := map kind_of tr.

Definition is_fetch (k : call_kind) : bool :=
  match k with CFetch => true | _ => false end.

(** How many times [fetch_fn] was called. *)
Definition fetch_calls (tr : list event) : nat :=
  length (filter is_fetch (kinds tr)).

Definition sleeps_of (ks : list call_kind) : list float :=
  flat_map (fun k => match k with CSleep d => [d] | _ => [] end) ks.

(** The durations passed to [time.sleep], in order. *)
Definition slept (tr : list event) : list float := sleeps_of (kinds tr).

(** The calls of [n] pending rounds that start with delay [delay]. *)
Fixpoint round_calls (backoff_factor : float) (n : nat) (delay : float)
  : list call_kind :=
  match n with
  | O => []
  | S n' =>
      CFetch :: CTime :: CSleep delay
        :: round_calls backoff_factor n' (delay * backoff_factor)%float
  end.

(** Every sleep in the log follows a clock reading [now] with
    [now + seconds <= deadline] (that is, not [now + seconds > deadline]). *)
Fixpoint sleeps_fit (deadline : float) (tr : list event) : bool :=
  match tr with
  | [] => true
  | EvTime now :: EvSleep d _ :: rest =>
      negb (deadline <? now + d)%float && sleeps_fit deadline rest
  | EvSleep _ _ :: _ => false
  | _ :: rest => sleeps_fit deadline rest
  end.

(** The same for a whole run, whose first call reads the clock and fixes
    the deadline. *)
Definition no_overshoot (max_wait_seconds : float) (tr : list event) : bool :=
  match tr with
  | EvTime t0 :: rest => sleeps_fit (t0 + max_wait_seconds)%float rest
  | _ => false
  end.

Definition trace_of {A W : Type} (run : option (result A) * list event * W)
  : list event := snd (fst run).

(** ** A virtual world for concrete runs *)

(** A clock that only [time.sleep] advances, and a counter of the calls
    made to the fetch stub. *)
Module Sim.

Record world : Type := { clock : float; calls : nat }.

Definition start : world := {| clock := 1000; calls := 0 |}.

Definition time_time (w : world) : float * world := (clock w, w).

(** [time.sleep] refuses a negative duration. *)
Definition time_sleep (seconds : float) : St world unit :=
  fun w =>
    if (seconds <? 0)%float then (Raise (OtherError "ValueError"), w)
    else (Ok tt, {| clock := (clock w + seconds)%float; calls := calls w |}).

(** A fetch stub that counts its calls, as the tests' [fake_get] does:
    [answer n job_id] is what the [n]-th call returns. *)
Definition fetch_by (answer : nat -> string -> result Job)
    (job_id : string) : St world Job :=
  fun w =>
    let n := S (calls w) in
    (answer n job_id, {| clock := clock w; calls := n |}).

(** [str(x)] for the floats the runs below print. *)
Definition float_str (x : float) : string :=
  if (x =? 0.02)%float then "0.02"
  else if (x =? 0.1)%float then "0.1"
  else if (x =? 60)%float then "60.0"
  else "1.0".

Definition job (job_id status : string) (downloadUrl : option string)
  : Job :=
  {| id := job_id; status := status; downloadUrl := downloadUrl;
     reportDownloadUrl := None |}.

(** A stub that always reports [status]. *)
Definition always (status : string) : string -> St world Job :=
  fetch_by (fun _ job_id => Ok (job job_id status None)).

End Sim.

(** ** tests/test_client_basic.py: the two poller tests on the virtual world *)

Module TestClientBasic.

(** [fake_get] of [test_wait_for_job_success]. *)
Definition fake_get : string -> St Sim.world Job :=
  Sim.fetch_by (fun n job_id =>
    if (n <? 3)%nat then Ok (Sim.job job_id "PENDING" None)
    else Ok (Sim.job job_id "COMPLETED" (Some "https://file"))).

(** [client.wait_for_job(fake_get, "job-42", interval_seconds=0.01,
    max_wait_seconds=0.1)] *)
Definition test_wait_for_job_success (fuel : nat) :=
  wait_for_job Sim.time_time Sim.time_sleep Sim.float_str upper
    fake_get "job-42" 0.01 0.1 1.5 "COMPLETED" ["FAILED"; "CANCELED"]
    fuel Sim.start.

(** [client.wait_for_job(fake_get, "job-42", interval_seconds=0.01,
    max_wait_seconds=0.02)] with a stub that always reports PENDING. *)
Definition test_wait_for_job_timeout (fuel : nat) :=
  wait_for_job Sim.time_time Sim.time_sleep Sim.float_str upper
    (Sim.always "PENDING") "job-42" 0.01 0.02 1.5 "COMPLETED"
    ["FAILED"; "CANCELED"] fuel Sim.start.

End TestClientBasic.

(** ** The error message as the specification words it *)

(** [key in d] *)
Fixpoint dict_has (kvs : list (string * pyvalue)) (key : string) : bool :=
  match kvs with
  | [] => false
  | (k, _) :: rest => (k =? key) || dict_has rest key
  end.

(** The value of the body's [message] field if present, else of its
    [error] field if present, else the raw response text. *)
Definition spec_error_message (resp : Response) : pyvalue :=
  match json resp with
  | Some (PDict data) =>
      if dict_has data "message" then dict_get data "message"
      else if dict_has data "error" then dict_get data "error"
      else PStr (text resp)
  | _ => PStr (text resp)
  end.

(** ** Concrete responses and stubs *)

Module Examples.

(** The double quote character, and a JSON string literal. *)
Definition dq : string := String (ascii_of_nat 34) EmptyString.
Definition quoted (s : string) : string := dq ++ s ++ dq.

Definition no_headers : string -> option string := fun _ => None.

Definition json_headers : string -> option string :=
  fun name => if name =? "content-type" then Some "application/json"
              else None.

Definition pdf_headers : string -> option string :=
  fun name => if name =? "content-type" then Some "application/pdf"
              else None.

(** 404 with body [{"message": "not found"}]. *)
Definition resp_not_found : Response :=
  {| status_code := 404;
     headers := json_headers;
     text := "{" ++ quoted "message" ++ ": " ++ quoted "not found" ++ "}";
     content := [];
     json := Some (PDict [("message", PStr "not found")]) |}.

(** 500 with a body that is not JSON. *)
Definition resp_server_error : Response :=
  {| status_code := 500;
     headers := no_headers;
     text := "Internal Server Error";
     content := [];
     json := None |}.

(** 400 with body [{"message": "", "error": "boom"}]: the [message] field
    is present and empty. *)
Definition resp_empty_message : Response :=
  {| status_code := 400;
     headers := json_headers;
     text := "{" ++ quoted "message" ++ ": " ++ quoted "" ++ ", "
               ++ quoted "error" ++ ": " ++ quoted "boom" ++ "}";
     content := [];
     json := Some (PDict [("message", PStr ""); ("error", PStr "boom")]) |}.

(** 200 with a PDF where a job was expected. *)
Definition resp_pdf : Response :=
  {| status_code := 200;
     headers := pdf_headers;
     text := "%PDF-1.4";
     content := [Byte.x25; Byte.x50; Byte.x44; Byte.x46];
     json := None |}.

(** A transport that answers every GET with [resp]. *)
Definition get_always (resp : Response)
  : string -> list (string * string) -> St unit Response :=
  fun _ _ w => (Ok resp, w).

Definition client : InvoiceIQClient :=
  {| _api_key := Some "KEY123"; _bearer := None;
     _base_url := "https://api.invoiceiq.fr" |}.

Definition reject_job : pyvalue -> result Job :=
  fun _ => Raise (OtherError "ValidationError").
Definition reject_report : pyvalue -> result ValidationReport :=
  fun _ => Raise (OtherError "ValidationError").

(** A stub whose [n]-th call reports the [n]-th status of [statuses]
    (the last one from then on). *)
Definition scripted (statuses : list string) : string -> St Sim.world Job :=
  Sim.fetch_by (fun n job_id =>
    Ok (Sim.job job_id (nth (n - 1) statuses (last statuses "")) None)).

(** A stub that reports PENDING once and then fails to connect. *)
Definition flaky : string -> St Sim.world Job :=
  Sim.fetch_by (fun n job_id =>
    if (n <? 2)%nat then Ok (Sim.job job_id "PENDING" None)
    else Raise (OtherError "ConnectError")).

(** [wait_for_job(fetch_fn, "job-42", interval_seconds=0.01,
    max_wait_seconds=0.1, completed_status=..., failed_statuses=...)] on
    the virtual world. *)
Definition poll (fetch_fn : string -> St Sim.world Job)
    (completed_status : string) (failed_statuses : list string)
    (fuel : nat) :=
  wait_for_job Sim.time_time Sim.time_sleep Sim.float_str upper fetch_fn "job-42"
    0.01 0.1 1.5 completed_status failed_statuses fuel Sim.start.

End Examples.

(** ** client.py: the constructor and the untyped operations *)

Definition DEFAULT_BASE_URL : string := "https://api.invoiceiq.fr".

(** [s.rstrip("/")]: [s] without its trailing slashes. *)
Fixpoint rstrip_slash (s : string) : string :=
  match s with
  | EmptyString => EmptyString
  | String c s' =>
      let r := rstrip_slash s' in
      if (r =? "") && (c =? "/")%char then EmptyString else String c r
  end.

(** [n] slashes. *)
Fixpoint slashes (n : nat) : string :=
  match n with
  | O => EmptyString
  | S n' => String "/" (slashes n')
  end.

(** [s.endswith("/")] *)
Fixpoint ends_with_slash (s : string) : bool :=
  match s with
  | EmptyString => false
  | String c EmptyString => (c =? "/")%char
  | String _ s' => ends_with_slash s'
  end.

(** [InvoiceIQClient.__init__], for the attributes the operations read;
    the transport it keeps in [_client] is part of the outside world. *)
Definition InvoiceIQClient_init (api_key bearer_token : option string)
    (base_url : string) : InvoiceIQClient :=
  {| _api_key := api_key;
     _bearer := bearer_token;
     _base_url := rstrip_slash base_url |}.

(** [d.get(k)] on a [Dict[str, str]]. *)
Fixpoint dict_lookup (d : list (string * string)) (k : string)
  : option string :=
  match d with
  | [] => None
  | (k', v) :: rest => if k' =? k then Some v else dict_lookup rest k
  end.

(** The value the last binding of [k] in [extra] gives, if any. *)
Definition last_binding (extra : list (string * string)) (k : string)
  : option string :=
  fold_left (fun acc kv => if fst kv =? k then Some (snd kv) else acc)
    extra None.

(** [s if s else None] on an [Optional[str]]. *)
Definition if_truthy (o : option string) : option string :=
  if str_truthy o then o else None.

Section ClientRequests.

Variable W : Type.
(** [self._client.get(url, headers=..., params=...)],
    [self._client.post(url, headers=..., files=..., data=...)] and
    [self._client.post(url, headers=..., json=...)]. *)
Variable client_get_params :
  string -> list (string * string) -> list (string * pyvalue) ->
  St W Response.
Variable client_post :
  string -> list (string * string) ->
  list (string * list Byte.byte) -> list (string * string) -> St W Response.
Variable client_post_json :
  string -> list (string * string) -> pyvalue -> St W Response.
Variable open_rb : string -> St W (list Byte.byte).
(** pydantic: [payload.model_dump()]. *)
Variable model_dump : TransformationMetadata -> pyvalue.

Variable self : InvoiceIQClient.

Definition validate_document (file_path : string)
    (idempotency_key callback_url reference_id : option string)
  : St W decoded :=
  (let url := _base_url self ++ "/v1/validations" in
   let headers :=
     _headers self
       (if str_truthy idempotency_key
        then Some [("Idempotency-Key", str_or_empty idempotency_key)]
        else None) in
   fp <- open_rb file_path ;;
   let data := [] in
   let data :=
     if str_truthy callback_url
     then dict_set data "callbackUrl" (str_or_empty callback_url)
     else data in
   let data :=
     if str_truthy reference_id
     then dict_set data "referenceId" (str_or_empty reference_id)
     else data in
   resp <- client_post url headers [("file", fp)] data ;;
   st_lift (_handle resp))%st.

Definition list_validations (query : list (string * pyvalue))
  : St W decoded :=
  (let url := _base_url self ++ "/v1/validations" in
   resp <- client_get_params url (_headers self None) query ;;
   st_lift (_handle resp))%st.

(** [payload] is a model or a plain dict. *)
Definition generate_invoice (payload : TransformationMetadata + pyvalue)
  : St W decoded :=
  (let url := _base_url self ++ "/api/v1/generations" in
   let headers :=
     _headers self (Some [("Content-Type", "application/json")]) in
   let json_data := match payload with
                    | inl m => model_dump m
                    | inr d => d
                    end in
   resp <- client_post_json url headers json_data ;;
   st_lift (_handle resp))%st.

End ClientRequests.

(** ** A transport that records the requests it is given *)

Inductive request : Type :=
| ReqGet (url : string) (headers : list (string * string))
    (params : list (string * pyvalue))
| ReqPostMultipart (url : string) (headers : list (string * string))
    (files : list (string * list Byte.byte)) (data : list (string * string))
| ReqPostJson (url : string) (headers : list (string * string))
    (body : pyvalue).

(** Any transport over a world [W], run over [W] paired with the list of
    the requests made so far. *)
Module Recording.

Section Recording.

Variable W : Type.

Definition world : Type := (W * list request)%type.

Definition sent (w : world) : list request := snd w.

(** An outside call that is not a request. *)
Definition quiet {A} (op : St W A) : St world A :=
  fun w => let '(r, w1) := op (fst w) in (r, (w1, snd w)).

(** [time.time()] over the paired world. *)
Definition quiet_time (time_time : W -> float * W) : world -> float * world :=
  fun w => let '(t, w1) := time_time (fst w) in (t, (w1, snd w)).

(** [time.sleep(seconds)] over the paired world. *)
Definition quiet_sleep (time_sleep : float -> St W unit)
  : float -> St world unit :=
  fun seconds => quiet (time_sleep seconds).

(** An outside call that sends [req]. *)
Definition sending {A} (req : request) (op : St W A) : St world A :=
  fun w => let '(r, w1) := op (fst w) in (r, (w1, (snd w ++ [req])%list)).

Definition get (client_get : string -> list (string * string) -> St W Response)
    (url : string) (headers : list (string * string)) : St world Response :=
  sending (ReqGet url headers []) (client_get url headers).

Definition get_params
    (client_get_params :
       string -> list (string * string) -> list (string * pyvalue) ->
       St W Response)
    (url : string) (headers : list (string * string))
    (params : list (string * pyvalue)) : St world Response :=
  sending (ReqGet url headers params) (client_get_params url headers params).

Definition post
    (client_post :
       string -> list (string * string) ->
       list (string * list Byte.byte) -> list (string * string) ->
       St W Response)
    (url : string) (headers : list (string * string))
    (files : list (string * list Byte.byte)) (data : list (string * string))
  : St world Response :=
  sending (ReqPostMultipart url headers files data)
    (client_post url headers files data).

Definition post_json
    (client_post_json :
       string -> list (string * string) -> pyvalue -> St W Response)
    (url : string) (headers : list (string * string)) (body : pyvalue)
  : St world Response :=
  sending (ReqPostJson url headers body) (client_post_json url headers body).

End Recording.

End Recording.

(** ** More stubs for concrete runs *)

Module Examples2.

(** A stand-in for [Job.model_validate] in concrete runs: it reads the two
    required string fields. *)
Definition job_of_fields (d : pyvalue) : result Job :=
  match d with
  | PDict kvs =>
      match dict_get kvs "id", dict_get kvs "status" with
      | PStr i, PStr s => Ok (Sim.job i s None)
      | _, _ => Raise (OtherError "ValidationError")
      end
  | _ => Raise (OtherError "ValidationError")
  end.

(** 200 with body [{"id": "job-42", "status": "PENDING"}]. *)
Definition resp_pending : Response :=
  {| status_code := 200;
     headers := Examples.json_headers;
     text := "{" ++ Examples.quoted "id" ++ ": " ++ Examples.quoted "job-42"
               ++ ", " ++ Examples.quoted "status" ++ ": "
               ++ Examples.quoted "PENDING" ++ "}";
     content := [];
     json := Some (PDict [("id", PStr "job-42"); ("status", PStr "PENDING")])
  |}.

(** A transport whose first GET answers PENDING and whose later GETs
    answer 404. *)
Definition get_then_not_found
  : string -> list (string * string) -> St Sim.world Response :=
  fun _ _ w =>
    let n := S (Sim.calls w) in
    (Ok (if (n <? 2)%nat then resp_pending else Examples.resp_not_found),
     {| Sim.clock := Sim.clock w; Sim.calls := n |}).

(** A transport that answers every request with 201 and
    [{"id": "val-1"}], and a file system with one file. *)
Definition resp_created : Response :=
  {| status_code := 201;
     headers := Examples.json_headers;
     text := "{" ++ Examples.quoted "id" ++ ": " ++ Examples.quoted "val-1"
               ++ "}";
     content := [];
     json := Some (PDict [("id", PStr "val-1")]) |}.

Definition post_created
  : string -> list (string * string) ->
    list (string * list Byte.byte) -> list (string * string) ->
    St unit Response :=
  fun _ _ _ _ w => (Ok resp_created, w).

Definition post_json_created
  : string -> list (string * string) -> pyvalue -> St unit Response :=
  fun _ _ _ w => (Ok resp_created, w).

Definition pdf_bytes : list Byte.byte :=
  [Byte.x25; Byte.x50; Byte.x44; Byte.x46].

Definition open_doc : string -> St unit (list Byte.byte) :=
  fun path w =>
    if path =? "doc.pdf" then (Ok pdf_bytes, w)
    else (Raise (OtherError "FileNotFoundError"), w).

(** Text that [json.dumps] writes between quotes as it is: printable
    ASCII without the quote and the backslash. *)
Fixpoint plain_text (s : string) : bool :=
  match s with
  | EmptyString => true
  | String c s' =>
      let n := nat_of_ascii c in
      (32 <=? n)%nat && (n <=? 126)%nat && negb (n =? 34)%nat
        && negb (n =? 92)%nat && plain_text s'
  end.

(** [json.dumps(d)] with its default separators, for values built from
    [None], booleans, integers, plain text, lists and dicts with plain
    keys; [None] of [option] for the others (floats, text to escape). *)
Fixpoint dumps_text (d : pyvalue) : option string :=
  match d with
  | PNone => Some "null"
  | PBool b => Some (if b then "true" else "false")
  | PInt z => Some (str_of_int z)
  | PFloat _ => None
  | PStr s => if plain_text s then Some (Examples.quoted s) else None
  | PList l =>
      option_map (fun body => "[" ++ body ++ "]")
        ((fix items (l : list pyvalue) : option string :=
            match l with
            | [] => Some EmptyString
            | x :: rest =>
                match dumps_text x, items rest with
                | Some a, Some b =>
                    Some (match rest with [] => a | _ => a ++ ", " ++ b end)
                | _, _ => None
                end
            end) l)
  | PDict kvs =>
      option_map (fun body => "{" ++ body ++ "}")
        ((fix items (kvs : list (string * pyvalue)) : option string :=
            match kvs with
            | [] => Some EmptyString
            | (k, v) :: rest =>
                match plain_text k, dumps_text v, items rest with
                | true, Some a, Some b =>
                    let kv := Examples.quoted k ++ ": " ++ a in
                    Some (match rest with [] => kv | _ => kv ++ ", " ++ b end)
                | _, _, _ => None
                end
            end) kvs)
  end.

(** A stand-in for [json.dumps] in concrete runs, on the values
    [dumps_text] covers. The runs below pass a model as metadata and do
    not call it. *)
Definition dumps_plain (d : pyvalue) : result string :=
  match dumps_text d with
  | Some s => Ok s
  | None => Raise (OtherError "NotImplementedError")
  end.

(** 500 with body [{"message": "Job job-42 en échec: FAILED"}]. *)
Definition resp_job_failed_text : Response :=
  {| status_code := 500;
     headers := Examples.json_headers;
     text := "{" ++ Examples.quoted "message" ++ ": "
               ++ Examples.quoted "Job job-42 en échec: FAILED" ++ "}";
     content := [];
     json := Some (PDict [("message", PStr "Job job-42 en échec: FAILED")])
  |}.

(** [make_meta()] of the tests. *)
Definition test_party (name line city post : string) : Party :=
  {| party_name := name; registrationId := None; vatId := None;
     party_countryCode := Some "FR";
     address := Some {| line1 := Some line; line2 := None;
                        postCode := Some post; city := Some city;
                        address_countryCode := Some "FR" |} |}.

Definition make_meta : TransformationMetadata :=
  {| invoiceNumber := "INV-2024-42";
     issueDate := "2024-02-22";
     currency := Some "EUR";
     typeCode := Some "380";
     seller := test_party "Seller" "rue A" "Paris" "75001";
     buyer := test_party "Buyer" "rue B" "Lyon" "69001";
     lines := None; taxes := None; taxSummaries := None;
     totalTaxExclusiveAmount := 100;
     taxTotalAmount := 20;
     totalTaxInclusiveAmount := 120;
     purchaseOrderReference := None;
     rendering := None |}.

(** A stand-in for [model_dump_json] in concrete runs: it writes the
    invoice number only. *)
Definition dump_invoice_number (m : TransformationMetadata) : string :=
  "{" ++ Examples.quoted "invoiceNumber" ++ ":"
      ++ Examples.quoted (invoiceNumber m) ++ "}".

(** A transport that answers every GET with a PDF. *)
Definition get_params_pdf
  : string -> list (string * string) -> list (string * pyvalue) ->
    St unit Response :=
  fun _ _ _ w => (Ok Examples.resp_pdf, w).

End Examples2.

(** ** How a run of the loop can end *)

(** The calls that follow [n] full rounds started with delay [delay], for
    each outcome: nothing when the fuel ran out; the fetch alone when a
    job is returned, and then the job passes the completed test; the fetch
    alone, the fetch and a clock reading, or these and the sleep of the
    delay then in force, when an exception comes out. *)
Definition ends_as (str_upper : string -> string) (backoff_factor : float)
    (completed_status : string) (n : nat) (delay : float)
    (r : option (result Job)) (last : list call_kind) : Prop :=
  match r with
  | None => last = []
  | Some (Ok job) =>
      last = [CFetch] /\ is_completed str_upper completed_status job = true
  | Some (Raise e) =>
      last = [CFetch] \/ last = [CFetch; CTime] \/
      last = [CFetch; CTime; CSleep (delay_after backoff_factor n delay)]
  end.

(** * Properties *)

(** ** Substrings *)

Lemma prefix_app (s t : string) : String.prefix s (s ++ t) = true.
Proof.
  induction s as [|c s IH]; simpl.
  - destruct t; reflexivity.
  - destruct (ascii_dec c c) as [_|ne]; [exact IH | now elim ne].
Qed.

Lemma str_in_unfold (sub s : string) :
  str_in sub s =
  String.prefix sub s ||
  match s with EmptyString => false | String _ s' => str_in sub s' end.
Proof. destruct s; reflexivity. Qed.

Lemma str_in_prefix (sub post : string) : str_in sub (sub ++ post) = true.
Proof. rewrite str_in_unfold, prefix_app. reflexivity. Qed.

Lemma str_in_app_r (pre sub s : string) :
  str_in sub s = true -> str_in sub (pre ++ s) = true.
Proof.
  intros H. induction pre as [|c pre IH]; simpl; [exact H|].
  rewrite IH. apply orb_true_r.
Qed.

Lemma str_in_refl (s : string) : str_in s s = true.
Proof.
  rewrite str_in_unfold.
  replace (String.prefix s s) with true; [reflexivity|].
  symmetry. induction s as [|c s IH]; simpl; [reflexivity|].
  destruct (ascii_dec c c) as [_|ne]; [exact IH | now elim ne].
Qed.

(** ** Upper case *)

Lemma upper_ascii_idem (c : ascii) : upper_ascii (upper_ascii c) = upper_ascii c.
Proof. destruct c as [[] [] [] [] [] [] [] []]; reflexivity. Qed.

Lemma upper_idem (s : string) : upper (upper s) = upper s.
Proof.
  induction s as [|c s IH]; simpl; [reflexivity|].
  now rewrite upper_ascii_idem, IH.
Qed.

(** The completed test compares the upper-cased job status with
    [completed_status] as configured: a configured status that is not in
    upper case matches no job. *)
Lemma is_completed_needs_upper_case (str_upper : string -> string)
    (completed_status : string) (job : Job) :
  (forall s, str_upper (str_upper s) = str_upper s) ->
  str_upper completed_status <> completed_status ->
  is_completed str_upper completed_status job = false.
Proof.
  intros Hidem Hne. unfold is_completed. apply String.eqb_neq. intros Heq.
  apply Hne. rewrite <- Heq. apply Hidem.
Qed.

(** A job whose status differs from [completed_status] even up to case
    fails the completed test. *)
Lemma not_completed_up_to_case (str_upper : string -> string)
    (completed_status : string) (job : Job) :
  (forall s, str_upper (str_upper s) = str_upper s) ->
  str_upper (status job) <> str_upper completed_status ->
  is_completed str_upper completed_status job = false.
Proof.
  intros Hidem Hne. unfold is_completed. apply String.eqb_neq. intros Heq.
  apply Hne. rewrite <- Heq. symmetry. apply Hidem.
Qed.

(** The failed test upper-cases both sides. *)
Lemma is_failed_case_insensitive (str_upper : string -> string)
    (failed_statuses : list string) (job : Job) :
  is_failed str_upper failed_statuses job = true <->
  exists F, In F failed_statuses /\ str_upper (status job) = str_upper F.
Proof.
  unfold is_failed. rewrite existsb_exists. split.
  - intros (x & Hin & Heq). apply in_map_iff in Hin as (F & <- & HF).
    exists F. split; [exact HF|]. now apply String.eqb_eq.
  - intros (F & HF & Hu). exists (str_upper F). split; [now apply in_map|].
    now apply String.eqb_eq.
Qed.

(** ** Logs of calls *)

Lemma delay_after_S (bf : float) (k : nat) (delay : float) :
  delay_after bf (S k) delay = delay_after bf k (delay * bf)%float.
Proof.
  unfold delay_after.
  exact (Nat.iter_succ_r k _ (fun d => (d * bf)%float) delay).
Qed.

Lemma fetch_calls_rounds bf n : forall delay,
  length (filter is_fetch (round_calls bf n delay)) = n.
Proof.
  induction n as [|n IH]; intros delay; simpl; [reflexivity|].
  now rewrite IH.
Qed.

Lemma slept_rounds bf n : forall delay i,
  i < n ->
  nth_error (sleeps_of (round_calls bf n delay)) i
  = Some (delay_after bf i delay).
Proof.
  induction n as [|n IH]; intros delay i Hi; [lia|].
  destruct i as [|i]; [reflexivity|].
  rewrite delay_after_S, <- (IH (delay * bf)%float i) by lia. reflexivity.
Qed.

Lemma slept_rounds_length bf n : forall delay,
  length (sleeps_of (round_calls bf n delay)) = n.
Proof.
  induction n as [|n IH]; intros delay; [reflexivity|].
  cbn. f_equal. apply IH.
Qed.

Lemma fetch_calls_run tr bf n delay ks :
  kinds tr = (CTime :: round_calls bf n delay ++ ks)%list ->
  fetch_calls tr = n + length (filter is_fetch ks).
Proof.
  intros Hk. unfold fetch_calls. rewrite Hk. simpl.
  now rewrite filter_app, length_app, fetch_calls_rounds.
Qed.

Lemma slept_length_run tr bf n delay ks :
  kinds tr = (CTime :: round_calls bf n delay ++ ks)%list ->
  length (slept tr) = n + length (sleeps_of ks).
Proof.
  intros Hk. unfold slept. rewrite Hk. unfold sleeps_of at 1.
  cbn [flat_map app]. rewrite flat_map_app, length_app.
  f_equal. apply slept_rounds_length.
Qed.

Lemma slept_run tr bf n delay ks i :
  kinds tr = (CTime :: round_calls bf n delay ++ ks)%list ->
  i < n ->
  nth_error (slept tr) i = Some (delay_after bf i delay).
Proof.
  intros Hk Hi. unfold slept. rewrite Hk. unfold sleeps_of at 1.
  cbn [flat_map app]. rewrite flat_map_app.
  rewrite nth_error_app1.
  - now apply slept_rounds.
  - apply nth_error_Some. fold (sleeps_of (round_calls bf n delay)).
    now rewrite slept_rounds.
Qed.

Lemma kinds_app (tr tr' : list event) :
  kinds (tr ++ tr') = (kinds tr ++ kinds tr')%list.
Proof. apply map_app. Qed.

(** ** One iteration of the loop *)

Section WaitForJobFacts.

Variable W : Type.
Variable time_time : W -> float * W.
Variable time_sleep : float -> St W unit.
Variable float_str : float -> string.
Variable str_upper : string -> string.
Variable fetch_fn : string -> St W Job.
Variable job_id : string.
Variables interval_seconds max_wait_seconds backoff_factor : float.
Variable completed_status : string.
Variable failed_statuses : list string.

Local Abbreviation loop :=
  (wait_loop time_time time_sleep float_str str_upper fetch_fn job_id
     max_wait_seconds backoff_factor completed_status failed_statuses).
Local Abbreviation pending :=
  (pending_rounds time_time time_sleep str_upper fetch_fn job_id backoff_factor
     completed_status failed_statuses).
Local Abbreviation completed := (is_completed str_upper completed_status).
Local Abbreviation failed := (is_failed str_upper failed_statuses).

Lemma wait_loop_fetch_raises fuel deadline delay w e w1 :
  fetch_fn job_id w = (Raise e, w1) ->
  loop (S fuel) deadline delay w =
  (Some (Raise e), [EvFetch job_id (Raise e)], w1).
Proof.
  intros Hf. simpl. unfold bind, call, perform. rewrite Hf. reflexivity.
Qed.

Lemma wait_loop_completed fuel deadline delay w job w1 :
  fetch_fn job_id w = (Ok job, w1) ->
  completed job = true ->
  loop (S fuel) deadline delay w =
  (Some (Ok job), [EvFetch job_id (Ok job)], w1).
Proof.
  intros Hf Hc. simpl. unfold bind, call, perform. rewrite Hf, Hc.
  reflexivity.
Qed.

Lemma wait_loop_failed fuel deadline delay w job w1 :
  fetch_fn job_id w = (Ok job, w1) ->
  completed job = false ->
  failed job = true ->
  loop (S fuel) deadline delay w =
  (Some (Raise (ApiError 500 (PStr (failed_message job_id job)) None)),
   [EvFetch job_id (Ok job)], w1).
Proof.
  intros Hf Hc Hx. simpl. unfold bind, call, perform.
  rewrite Hf, Hc, Hx. reflexivity.
Qed.

Lemma wait_loop_timeout fuel deadline delay w job w1 now w2 :
  fetch_fn job_id w = (Ok job, w1) ->
  completed job = false ->
  failed job = false ->
  time_time w1 = (now, w2) ->
  (deadline <? now + delay)%float = true ->
  loop (S fuel) deadline delay w =
  (Some (Raise (TimeoutError
                  (timeout_message float_str job_id max_wait_seconds))),
   [EvFetch job_id (Ok job); EvTime now], w2).
Proof.
  intros Hf Hc Hx Ht Hd. simpl. unfold bind, call, perform, time.
  rewrite Hf, Hc, Hx, Ht, Hd. reflexivity.
Qed.

Lemma wait_loop_sleeps fuel deadline delay w job w1 now w2 u w3 :
  fetch_fn job_id w = (Ok job, w1) ->
  completed job = false ->
  failed job = false ->
  time_time w1 = (now, w2) ->
  (deadline <? now + delay)%float = false ->
  time_sleep delay w2 = (Ok u, w3) ->
  loop (S fuel) deadline delay w =
  let '(r, tr, w4) := loop fuel deadline (delay * backoff_factor)%float w3 in
  (r, EvFetch job_id (Ok job) :: EvTime now :: EvSleep delay (Ok u) :: tr,
   w4).
Proof.
  intros Hf Hc Hx Ht Hd Hs. simpl. unfold bind, call, perform, time, sleep.
  rewrite Hf, Hc, Hx, Ht, Hd. unfold perform. rewrite Hs.
  destruct (loop fuel deadline (delay * backoff_factor)%float w3)
    as [[r tr] w4].
  reflexivity.
Qed.


(** ** Runs that stay pending for [n] rounds *)

Lemma wait_loop_pending n : forall deadline delay w w',
  pending n deadline delay w = Some w' ->
  exists tr,
    kinds tr = round_calls backoff_factor n delay /\
    forall m,
      loop (n + m) deadline delay w =
      let '(r, tr', w'') :=
        loop m deadline (delay_after backoff_factor n delay) w' in
      (r, (tr ++ tr')%list, w'').
Proof.
  induction n as [|n IH]; intros deadline delay w w' Hp.
  - injection Hp as <-. exists []. split; [reflexivity|]. intros m. simpl.
    destruct (loop m deadline delay w) as [[r tr] w'']. reflexivity.
  - simpl in Hp.
    destruct (fetch_fn job_id w) as [[job|e] w1] eqn:Hf; [|discriminate].
    destruct (completed job || failed job) eqn:Hcf; [discriminate|].
    apply orb_false_elim in Hcf as [Hc Hx].
    destruct (time_time w1) as [now w2] eqn:Ht.
    destruct (deadline <? now + delay)%float eqn:Hd; [discriminate|].
    destruct (time_sleep delay w2) as [[u|e] w3] eqn:Hs; [|discriminate].
    destruct (IH _ _ _ _ Hp) as (tr & Hk & Hrun).
    exists (EvFetch job_id (Ok job) :: EvTime now :: EvSleep delay (Ok u)
              :: tr).
    split; [cbn [round_calls]; rewrite <- Hk; reflexivity|].
    intros m. change (S n + m) with (S (n + m)).
    rewrite (wait_loop_sleeps (n + m) Hf Hc Hx Ht Hd Hs), Hrun, delay_after_S.
    destruct (loop m deadline
                (delay_after backoff_factor n (delay * backoff_factor)%float)
                w') as [[r tr'] w''].
    reflexivity.
Qed.

Local Abbreviation poll :=
  (wait_for_job time_time time_sleep float_str str_upper fetch_fn job_id
     interval_seconds max_wait_seconds backoff_factor completed_status
     failed_statuses).

(** The deadline is read from the clock once, before the first round. *)
Lemma wait_for_job_pending n w0 t0 w1 w2 :
  time_time w0 = (t0, w1) ->
  pending n (t0 + max_wait_seconds)%float interval_seconds w1 = Some w2 ->
  exists tr,
    kinds tr = CTime :: round_calls backoff_factor n interval_seconds /\
    forall m,
      poll (n + m) w0 =
      let '(r, tr', w') :=
        loop m (t0 + max_wait_seconds)%float
          (delay_after backoff_factor n interval_seconds) w2 in
      (r, (tr ++ tr')%list, w').
Proof.
  intros Ht Hp. destruct (wait_loop_pending _ _ _ _ Hp) as (tr & Hk & Hrun).
  exists (EvTime t0 :: tr). split; [rewrite <- Hk; reflexivity|].
  intros m. unfold wait_for_job, bind, time. rewrite Ht, Hrun.
  destruct (loop m (t0 + max_wait_seconds)%float
              (delay_after backoff_factor n interval_seconds) w2)
    as [[r tr'] w'].
  reflexivity.
Qed.

(** A run that stays pending for [n] rounds and whose next round ends the
    loop ends there, whatever fuel is left. *)
Lemma wait_for_job_last_round n w0 t0 w1 w2 r tr' w3 fuel :
  time_time w0 = (t0, w1) ->
  pending n (t0 + max_wait_seconds)%float interval_seconds w1 = Some w2 ->
  (forall m,
     loop (S m) (t0 + max_wait_seconds)%float
       (delay_after backoff_factor n interval_seconds) w2 = (r, tr', w3)) ->
  n < fuel ->
  exists tr,
    poll fuel w0 = (r, tr, w3) /\
    kinds tr =
      (CTime :: round_calls backoff_factor n interval_seconds ++ kinds tr')%list.
Proof.
  intros Ht Hp Hlast Hfuel.
  destruct (wait_for_job_pending _ Ht Hp) as (tr & Hk & Hrun).
  exists (tr ++ tr')%list. split.
  - replace fuel with (n + S (fuel - S n)) by lia.
    rewrite Hrun, Hlast. reflexivity.
  - rewrite kinds_app, Hk. reflexivity.
Qed.

Lemma is_failed_member job F :
  In F failed_statuses ->
  str_upper (status job) = str_upper F ->
  failed job = true.
Proof.
  intros HF Hu. unfold is_failed. apply existsb_exists.
  exists (str_upper F). split; [now apply in_map|].
  rewrite Hu. apply String.eqb_refl.
Qed.

Lemma failed_message_job_id job :
  str_in job_id (failed_message job_id job) = true.
Proof.
  unfold failed_message. apply (str_in_app_r "Job "). apply str_in_prefix.
Qed.

Lemma failed_message_status job :
  str_in (status job) (failed_message job_id job) = true.
Proof.
  unfold failed_message. apply (str_in_app_r "Job ").
  apply str_in_app_r. apply str_in_app_r. apply str_in_refl.
Qed.

Lemma timeout_message_bound :
  str_in (float_str max_wait_seconds)
    (timeout_message float_str job_id max_wait_seconds) = true.
Proof.
  unfold timeout_message. apply str_in_app_r. apply str_in_prefix.
Qed.

Lemma timeout_message_job_id :
  str_in job_id (timeout_message float_str job_id max_wait_seconds) = true.
Proof.
  unfold timeout_message. do 3 apply str_in_app_r. apply str_in_refl.
Qed.

(** ** The poller's contract *)

(** A run that ends with a job the completed test accepts: if the first
    [n - 1] fetches report a non-terminal status and every delay fits
    before the deadline, and the [n]-th fetch reports a status whose upper
    case equals [completed_status], then [wait_for_job] returns the
    [n]-th job after exactly [n] fetches, and the sleep between fetch
    [i + 1] and fetch [i + 2] lasts [interval_seconds] multiplied [i]
    times by [backoff_factor]. *)
Theorem wait_for_job_backoff_schedule n w0 t0 w1 w2 job w3 :
  1 <= n ->
  time_time w0 = (t0, w1) ->
  pending (n - 1) (t0 + max_wait_seconds)%float interval_seconds w1
    = Some w2 ->
  fetch_fn job_id w2 = (Ok job, w3) ->
  completed job = true ->
  forall fuel, n <= fuel ->
  exists tr,
    poll fuel w0 = (Some (Ok job), tr, w3) /\
    fetch_calls tr = n /\
    kinds tr =
      (CTime :: round_calls backoff_factor (n - 1) interval_seconds
         ++ [CFetch])%list /\
    length (slept tr) = n - 1 /\
    forall i, i < n - 1 ->
      nth_error (slept tr) i
      = Some (delay_after backoff_factor i interval_seconds).
Proof.
  intros Hn Ht Hp Hf Hc fuel Hfuel.
  destruct (wait_for_job_last_round (fuel := fuel) Ht Hp
              (fun m => wait_loop_completed m _ _ Hf Hc))
    as (tr & Hrun & Hk); [lia|].
  exists tr. cbn [kinds map kind_of] in Hk.
  repeat split; trivial.
  - rewrite fetch_calls_run with (1 := Hk). simpl. lia.
  - rewrite slept_length_run with (1 := Hk). simpl. lia.
  - intros i Hi. eapply slept_run; eassumption.
Qed.

Lemma wait_loop_sleeps_fit fuel : forall deadline delay w,
  sleeps_fit deadline (trace_of (loop fuel deadline delay w)) = true.
Proof.
  induction fuel as [|fuel IH]; intros deadline delay w; [reflexivity|].
  destruct (fetch_fn job_id w) as [[job|e] w1] eqn:Hf;
    [|rewrite (wait_loop_fetch_raises _ _ _ Hf); reflexivity].
  destruct (completed job) eqn:Hc;
    [rewrite (wait_loop_completed _ _ _ Hf Hc); reflexivity|].
  destruct (failed job) eqn:Hx;
    [rewrite (wait_loop_failed _ _ _ Hf Hc Hx); reflexivity|].
  destruct (time_time w1) as [now w2] eqn:Ht.
  destruct (deadline <? now + delay)%float eqn:Hd;
    [rewrite (wait_loop_timeout _ Hf Hc Hx Ht Hd); reflexivity|].
  destruct (time_sleep delay w2) as [[u|e] w3] eqn:Hs.
  - rewrite (wait_loop_sleeps fuel Hf Hc Hx Ht Hd Hs).
    specialize (IH deadline (delay * backoff_factor)%float w3).
    destruct (loop fuel deadline (delay * backoff_factor)%float w3)
      as [[r tr] w4].
    unfold trace_of in *. cbn in *. now rewrite Hd.
  - simpl. unfold bind, call, perform, time, sleep.
    rewrite Hf, Hc, Hx, Ht, Hd. unfold perform. rewrite Hs.
    unfold trace_of. cbn. now rewrite Hd.
Qed.

Lemma wait_for_job_no_overshoot fuel w :
  no_overshoot max_wait_seconds (trace_of (poll fuel w)) = true.
Proof.
  unfold wait_for_job, bind, time.
  destruct (time_time w) as [t0 w1].
  pose proof (wait_loop_sleeps_fit fuel (t0 + max_wait_seconds)%float
                interval_seconds w1) as H.
  destruct (loop fuel (t0 + max_wait_seconds)%float interval_seconds w1)
    as [[r tr] w2].
  exact H.
Qed.

(** C2 (as amended): for a member [F] of [failed_statuses] and a job whose
    status matches [F] up to case and does not match [completed_status] up
    to case, [wait_for_job] raises an [ApiError] on the first fetch
    reporting it, makes no further call, and the message names the job id
    and the reported status. Upper-casing is any idempotent function, as
    [str.upper] is. *)
Theorem wait_for_job_failed_status n w0 t0 w1 w2 job w3 F :
  (forall s, str_upper (str_upper s) = str_upper s) ->
  time_time w0 = (t0, w1) ->
  pending n (t0 + max_wait_seconds)%float interval_seconds w1 = Some w2 ->
  fetch_fn job_id w2 = (Ok job, w3) ->
  In F failed_statuses ->
  str_upper (status job) = str_upper F ->
  str_upper (status job) <> str_upper completed_status ->
  forall fuel, n < fuel ->
  exists tr,
    poll fuel w0 =
      (Some (Raise (ApiError 500 (PStr (failed_message job_id job)) None)),
       tr, w3) /\
    fetch_calls tr = S n /\
    kinds tr =
      (CTime :: round_calls backoff_factor n interval_seconds
         ++ [CFetch])%list /\
    str_in job_id (failed_message job_id job) = true /\
    str_in (status job) (failed_message job_id job) = true /\
    str_in job_id (ApiError_str 500 (failed_message job_id job)) = true /\
    str_in (status job) (ApiError_str 500 (failed_message job_id job)) = true.
Proof.
  intros Hidem Ht Hp Hf HF Hu Hne fuel Hfuel.
  pose proof (not_completed_up_to_case str_upper completed_status job
                Hidem Hne) as Hc.
  pose proof (is_failed_member job HF Hu) as Hx.
  destruct (wait_for_job_last_round (fuel := fuel) Ht Hp
              (fun m => wait_loop_failed m _ _ Hf Hc Hx))
    as (tr & Hrun & Hk); [lia|].
  exists tr. cbn [kinds map kind_of] in Hk.
  repeat split; trivial.
  - rewrite fetch_calls_run with (1 := Hk). simpl. lia.
  - apply failed_message_job_id.
  - apply failed_message_status.
  - unfold ApiError_str. do 3 apply str_in_app_r. apply failed_message_job_id.
  - unfold ApiError_str. do 3 apply str_in_app_r. apply failed_message_status.
Qed.

(** C3: the deadline is [now + max_wait_seconds], read once on entry; when
    a fetched job is neither completed nor failed and
    [now + delay > deadline], [wait_for_job] raises a [TimeoutError], which
    is not an [ApiError], naming the bound and the job id, without
    sleeping; and in every run each sleep that is started fits before the
    deadline. *)
Theorem wait_for_job_timeout_before_sleep n w0 t0 w1 w2 job w3 now w4 :
  time_time w0 = (t0, w1) ->
  pending n (t0 + max_wait_seconds)%float interval_seconds w1 = Some w2 ->
  fetch_fn job_id w2 = (Ok job, w3) ->
  completed job = false ->
  failed job = false ->
  time_time w3 = (now, w4) ->
  (t0 + max_wait_seconds
     <? now + delay_after backoff_factor n interval_seconds)%float = true ->
  forall fuel, n < fuel ->
  let msg := timeout_message float_str job_id max_wait_seconds in
  (exists tr,
     poll fuel w0 = (Some (Raise (TimeoutError msg)), tr, w4) /\
     kinds tr =
       (CTime :: round_calls backoff_factor n interval_seconds
          ++ [CFetch; CTime])%list /\
     length (slept tr) = n) /\
  is_ApiError (TimeoutError msg) = false /\
  str_in (float_str max_wait_seconds) msg = true /\
  str_in job_id msg = true /\
  (forall fuel' w,
     no_overshoot max_wait_seconds (trace_of (poll fuel' w)) = true).
Proof.
  intros Ht Hp Hf Hc Hx Hnow Hd fuel Hfuel msg.
  destruct (wait_for_job_last_round (fuel := fuel) Ht Hp
              (fun m => wait_loop_timeout m Hf Hc Hx Hnow Hd))
    as (tr & Hrun & Hk); [lia|].
  cbn [kinds map kind_of] in Hk.
  repeat split.
  - exists tr. repeat split; trivial.
    rewrite slept_length_run with (1 := Hk). simpl. lia.
  - apply timeout_message_bound.
  - apply timeout_message_job_id.
  - intros fuel' w. apply wait_for_job_no_overshoot.
Qed.

(** C6: an exception raised by [fetch_fn] is the outcome of
    [wait_for_job], unchanged, and the failing fetch is its last call. *)
Theorem wait_for_job_fetch_error_propagates n w0 t0 w1 w2 e w3 :
  time_time w0 = (t0, w1) ->
  pending n (t0 + max_wait_seconds)%float interval_seconds w1 = Some w2 ->
  fetch_fn job_id w2 = (Raise e, w3) ->
  forall fuel, n < fuel ->
  exists tr,
    poll fuel w0 = (Some (Raise e), tr, w3) /\
    kinds tr =
      (CTime :: round_calls backoff_factor n interval_seconds
         ++ [CFetch])%list /\
    fetch_calls tr = S n /\
    length (slept tr) = n.
Proof.
  intros Ht Hp Hf fuel Hfuel.
  destruct (wait_for_job_last_round (fuel := fuel) Ht Hp
              (fun m => wait_loop_fetch_raises m _ _ Hf))
    as (tr & Hrun & Hk); [lia|].
  exists tr. cbn [kinds map kind_of] in Hk.
  repeat split; trivial.
  - rewrite fetch_calls_run with (1 := Hk). simpl. lia.
  - rewrite slept_length_run with (1 := Hk). simpl. lia.
Qed.

(** C10 (as amended): the [ApiError] raised for a job in the failed class
    carries status code 500, whatever the job's status is, and [_handle]
    raises an [ApiError] with the same status code for an HTTP 500, so the
    status code does not tell them apart; nor does the message in general,
    since an HTTP 500 whose body carries the same message gives the same
    message; the response does: the first error has none, the second
    always has the response it was built from. *)
Theorem failed_job_error_has_status_500 n w0 t0 w1 w2 job w3 :
  time_time w0 = (t0, w1) ->
  pending n (t0 + max_wait_seconds)%float interval_seconds w1 = Some w2 ->
  fetch_fn job_id w2 = (Ok job, w3) ->
  completed job = false ->
  failed job = true ->
  forall fuel, n < fuel ->
  exists tr e,
    poll fuel w0 = (Some (Raise e), tr, w3) /\
    is_ApiError e = true /\
    exn_status_code e = Some 500%Z /\
    exn_response e = None /\
    (forall resp, status_code resp = 500%Z ->
       exists e', _handle resp = Raise e' /\
                  is_ApiError e' = true /\
                  exn_status_code e' = exn_status_code e /\
                  exn_response e' = Some resp /\
                  exn_response e' <> exn_response e) /\
    (forall resp, status_code resp = 500%Z ->
       json resp = Some (PDict [("message", PStr (failed_message job_id job))])
       ->
       exists e', _handle resp = Raise e' /\
                  exn_message e' = exn_message e).
Proof.
  intros Ht Hp Hf Hc Hx fuel Hfuel.
  destruct (wait_for_job_last_round (fuel := fuel) Ht Hp
              (fun m => wait_loop_failed m _ _ Hf Hc Hx))
    as (tr & Hrun & _); [lia|].
  exists tr, (ApiError 500 (PStr (failed_message job_id job)) None).
  split; [exact Hrun|]. split; [reflexivity|]. split; [reflexivity|].
  split; [reflexivity|]. split.
  - intros resp H500. unfold _handle. rewrite H500. simpl.
    eexists. repeat split. discriminate.
  - intros resp H500 Hj. unfold _handle. rewrite H500.
    eexists. split; [reflexivity|].
    unfold error_message. rewrite Hj. reflexivity.
Qed.

End WaitForJobFacts.

(** ** [_handle] *)

Lemma dict_get_absent (kvs : list (string * pyvalue)) (key : string) :
  dict_has kvs key = false -> dict_get kvs key = PNone.
Proof.
  induction kvs as [|[k v] rest IH]; simpl; [reflexivity|].
  destruct (k =? key); simpl; [discriminate | exact IH].
Qed.

(** C7 (as amended): a response with status >= 400 raises an [ApiError]
    with that status code and the response attached, whose message is the
    body's [message] field if it is present and truthy, else its [error]
    field if present and truthy, else the raw text; 404 with
    [{"message": "not found"}] gives the message "not found", and a body
    that is not JSON gives the raw text. *)
Theorem handle_error_response (resp : Response) :
  (400 <= status_code resp)%Z ->
  exists msg,
    _handle resp = Raise (ApiError (status_code resp) msg (Some resp)) /\
    (forall data, json resp = Some (PDict data) ->
       (truthy (dict_get data "message") = true ->
        msg = dict_get data "message") /\
       (truthy (dict_get data "message") = false ->
        truthy (dict_get data "error") = true ->
        msg = dict_get data "error") /\
       (truthy (dict_get data "message") = false ->
        truthy (dict_get data "error") = false ->
        msg = PStr (text resp))) /\
    ((forall data, json resp <> Some (PDict data)) ->
     msg = PStr (text resp)) /\
    (json resp = Some (PDict [("message", PStr "not found")]) ->
     msg = PStr "not found") /\
    (json resp = None -> msg = PStr (text resp)).
Proof.
  intros Hs. exists (error_message resp). split.
  - unfold _handle. apply Z.leb_le in Hs. now rewrite Hs.
  - unfold error_message, py_or. repeat split.
    + intros Hm. rewrite H, Hm. cbv iota. now rewrite Hm.
    + intros Hm He. rewrite H, Hm. cbv iota. now rewrite He.
    + intros Hm He. rewrite H, Hm. cbv iota. now rewrite He.
    + intros Hnd. destruct (json resp) as [[| | | | | |data]|];
        try reflexivity. now elim (Hnd data).
    + intros ->. reflexivity.
    + intros ->. reflexivity.
Qed.

Lemma handle_binary (resp : Response) :
  (status_code resp < 400)%Z ->
  str_in "application/json" (content_type resp) = false ->
  _handle resp = Ok (Bytes (content resp)).
Proof.
  intros Hs Hc. unfold _handle.
  apply Z.leb_gt in Hs. now rewrite Hs, Hc.
Qed.

Lemma handle_json (resp : Response) (d : pyvalue) :
  (status_code resp < 400)%Z ->
  str_in "application/json" (content_type resp) = true ->
  json resp = Some d ->
  _handle resp = Ok (Json d).
Proof.
  intros Hs Hc Hj. unfold _handle.
  apply Z.leb_gt in Hs. now rewrite Hs, Hc, Hj.
Qed.

(** ** The typed fetch operations *)

Section ClientFacts.

Variable W : Type.
Variable client_get : string -> list (string * string) -> St W Response.
Variable client_post :
  string -> list (string * string) ->
  list (string * list Byte.byte) -> list (string * string) -> St W Response.
Variable open_rb : string -> St W (list Byte.byte).
Variable Job_model_validate : pyvalue -> result Job.
Variable ValidationReport_model_validate : pyvalue -> result ValidationReport.
Variable model_dump_json : TransformationMetadata -> string.
Variable json_dumps : pyvalue -> result string.
Variable self : InvoiceIQClient.

(** C8: when the server answers a typed fetch with a successful response
    whose content type is not JSON, each of [get_validation_report],
    [get_transformation] and [get_generation] raises its own [ApiError],
    whatever the record parser would do; the parser is applied to the
    decoded structure of a JSON response only. *)
Theorem typed_fetch_rejects_binary (resp : Response) (some_id : string)
    (w w1 : W) :
  (status_code resp < 400)%Z ->
  let hdrs := _headers self None in
  let report_url :=
    _base_url self ++ "/v1/validations/" ++ some_id ++ "/report" in
  let transformation_url :=
    _base_url self ++ "/api/v1/transformations/" ++ some_id in
  let generation_url :=
    _base_url self ++ "/api/v1/generations/" ++ some_id in
  (str_in "application/json" (content_type resp) = false ->
   (client_get report_url hdrs w = (Ok resp, w1) ->
    get_validation_report client_get ValidationReport_model_validate self
      some_id w
    = (Raise (ApiError 500
         (PStr "Réponse binaire inattendue pour un rapport JSON") None), w1))
   /\
   (client_get transformation_url hdrs w = (Ok resp, w1) ->
    get_transformation client_get Job_model_validate self some_id w
    = (Raise (ApiError 500
         (PStr "Réponse binaire inattendue pour un job JSON") None), w1))
   /\
   (client_get generation_url hdrs w = (Ok resp, w1) ->
    get_generation client_get Job_model_validate self some_id w
    = (Raise (ApiError 500
         (PStr "Réponse binaire inattendue pour un job JSON") None), w1)))
  /\
  (forall d,
     str_in "application/json" (content_type resp) = true ->
     json resp = Some d ->
     (client_get report_url hdrs w = (Ok resp, w1) ->
      get_validation_report client_get ValidationReport_model_validate self
        some_id w
      = (ValidationReport_model_validate d, w1))
     /\
     (client_get transformation_url hdrs w = (Ok resp, w1) ->
      get_transformation client_get Job_model_validate self some_id w
      = (Job_model_validate d, w1))
     /\
     (client_get generation_url hdrs w = (Ok resp, w1) ->
      get_generation client_get Job_model_validate self some_id w
      = (Job_model_validate d, w1))).
Proof.
  intros Hs hdrs report_url transformation_url generation_url. split.
  - intros Hc.
    unfold get_validation_report, get_transformation, get_generation,
      st_bind, st_lift, st_raise.
    fold hdrs report_url transformation_url generation_url.
    repeat split; intros ->; now rewrite (handle_binary resp Hs Hc).
  - intros d Hc Hj.
    unfold get_validation_report, get_transformation, get_generation,
      st_bind, st_lift.
    fold hdrs report_url transformation_url generation_url.
    repeat split; intros ->; now rewrite (handle_json resp Hs Hc Hj).
Qed.

(** [transform_pdf] with a model: once the file is open, the one POST
    carries the file part and a single form field, [metadata], whose value
    is the string [model_dump_json] returned. *)
Lemma transform_pdf_metadata_field file_path m key w fp w1 :
  open_rb file_path w = (Ok fp, w1) ->
  transform_pdf client_post open_rb model_dump_json json_dumps self
    file_path (inl m) key w
  = st_bind
      (client_post (_base_url self ++ "/api/v1/transformations")
         (_headers self
            (if str_truthy key
             then Some [("Idempotency-Key", str_or_empty key)] else None))
         [("file", fp)] [("metadata", model_dump_json m)])
      (fun resp => st_lift (_handle resp)) w1.
Proof.
  intros Ho. unfold transform_pdf, st_bind at 1 2, st_lift at 1.
  rewrite Ho. reflexivity.
Qed.

End ClientFacts.

(** ** Concrete runs *)

(** C1: with [completed_status = "completed"], a job that reports
    "completed" equals the configured status up to case (even exactly), yet
    [wait_for_job] does not return it: it goes on fetching and sleeping
    until no delay fits, and raises [TimeoutError]. *)
Theorem wait_for_job_lowercase_completed_status :
  upper "completed" = upper "completed" /\
  exists tr w,
    Examples.poll (Sim.always "completed") "completed"
      ["FAILED"; "CANCELED"] 10
    = (Some (Raise (TimeoutError
                      "Timeout après 0.1s en attendant le job job-42")),
       tr, w) /\
    fetch_calls tr = 5 /\
    length (slept tr) = 4.
Proof.
  split; [reflexivity|]. eexists. eexists.
  split; [vm_compute; reflexivity|]. split; reflexivity.
Qed.

(** C4: with [completed_status = "Completed"] also listed in
    [failed_statuses], a job that reports "Completed" is not returned:
    the completed test misses it and the failed test raises. *)
Theorem wait_for_job_completed_in_failed_statuses :
  In "Completed" ["Completed"; "FAILED"] /\
  exists tr w,
    Examples.poll (Sim.always "Completed") "Completed"
      ["Completed"; "FAILED"] 10
    = (Some (Raise (ApiError 500
                      (PStr "Job job-42 en échec: Completed") None)),
       tr, w) /\
    fetch_calls tr = 1.
Proof.
  split; [now left|]. eexists. eexists.
  split; [vm_compute; reflexivity|]. reflexivity.
Qed.

(** C5: with [completed_status = "done"] and a stub that reports PENDING,
    PENDING and then "done" (intervals 0.01, factor 1.5, 0.1 to wait, every
    delay fitting), the third job is not returned after 3 fetches: the
    completed test compares "DONE" with "done", and the run goes on to 5
    fetches, 4 sleeps and a [TimeoutError]. *)
Theorem wait_for_job_lowercase_completed_on_third_fetch :
  exists tr w,
    Examples.poll (Examples.scripted ["PENDING"; "PENDING"; "done"]) "done"
      ["FAILED"; "CANCELED"] 10
    = (Some (Raise (TimeoutError
                      "Timeout après 0.1s en attendant le job job-42")),
       tr, w) /\
    fetch_calls tr = 5 /\
    length (slept tr) = 4 /\
    nth_error tr 7
    = Some (EvFetch "job-42" (Ok (Sim.job "job-42" "done" None))).
Proof.
  eexists. eexists.
  split; [vm_compute; reflexivity|]. repeat split.
Qed.

(** With an upper-case [completed_status] the completed test does come
    first: a job that passes it is returned even if its status is also in
    [failed_statuses]. *)
Lemma completed_wins_when_upper_case :
  exists tr w,
    Examples.poll (Sim.always "Completed") "COMPLETED"
      ["Completed"; "FAILED"] 10
    = (Some (Ok (Sim.job "job-42" "Completed" None)), tr, w) /\
    fetch_calls tr = 1.
Proof.
  eexists. eexists. split; [vm_compute; reflexivity|]. reflexivity.
Qed.

(** C2, as stated, fails: "DONE" is a member of [failed_statuses] and the
    job reports "done", but "DONE" is also the completed status, and the
    job is returned. *)
Lemma failed_status_shadowed_by_completed :
  In "DONE" ["FAILED"; "DONE"] /\
  upper "done" = upper "DONE" /\
  exists tr w,
    Examples.poll (Sim.always "done") "DONE" ["FAILED"; "DONE"] 10
    = (Some (Ok (Sim.job "job-42" "done" None)), tr, w).
Proof.
  split; [right; now left|]. split; [reflexivity|].
  eexists. eexists. vm_compute. reflexivity.
Qed.

(** C10, as stated, fails: the error for a failed job and the error for an
    HTTP 500 whose body carries the same message have the same status code
    and the same message, and still differ: only the second has a
    response attached. *)
Lemma failed_job_error_has_no_response :
  exists tr w e1 e2,
    Examples.poll (Sim.always "FAILED") "COMPLETED" ["FAILED"; "CANCELED"] 5
    = (Some (Raise e1), tr, w) /\
    _handle Examples2.resp_job_failed_text = Raise e2 /\
    exn_status_code e1 = exn_status_code e2 /\
    exn_message e1 = exn_message e2 /\
    exn_response e1 = None /\
    exn_response e2 = Some Examples2.resp_job_failed_text.
Proof.
  eexists. eexists. eexists. eexists.
  split; [vm_compute; reflexivity|]. split; [reflexivity|].
  repeat split.
Qed.

(** C7, as stated, fails: the body has a [message] field, the empty
    string, and the error carries the [error] field instead. *)
Lemma handle_empty_message_field :
  (400 <= status_code Examples.resp_empty_message)%Z /\
  spec_error_message Examples.resp_empty_message = PStr "" /\
  _handle Examples.resp_empty_message
  = Raise (ApiError 400 (PStr "boom") (Some Examples.resp_empty_message)) /\
  PStr "boom" <> spec_error_message Examples.resp_empty_message.
Proof.
  split; [simpl; lia|]. split; [reflexivity|]. split; [reflexivity|].
  discriminate.
Qed.

(** ** The theorems at concrete inputs *)

(** [test_wait_for_job_success]: PENDING twice, then COMPLETED on the third
    fetch; sleeps of 0.01 and 0.01 * 1.5. *)
Lemma wait_for_job_backoff_schedule_witness :
  exists tr,
    TestClientBasic.test_wait_for_job_success 3
    = (Some (Ok (Sim.job "job-42" "COMPLETED" (Some "https://file"))), tr,
       {| Sim.clock := 1000.025; Sim.calls := 3 |}) /\
    fetch_calls tr = 3 /\
    kinds tr = (CTime :: round_calls 1.5 (3 - 1) 0.01 ++ [CFetch])%list /\
    length (slept tr) = 3 - 1 /\
    forall i, i < 3 - 1 ->
      nth_error (slept tr) i = Some (delay_after 1.5 i 0.01).
Proof.
  apply (@wait_for_job_backoff_schedule _ Sim.time_time Sim.time_sleep
           Sim.float_str upper TestClientBasic.fake_get "job-42" 0.01 0.1 1.5
           "COMPLETED" ["FAILED"; "CANCELED"] 3 Sim.start 1000 Sim.start
           {| Sim.clock := 1000.025; Sim.calls := 2 |}
           (Sim.job "job-42" "COMPLETED" (Some "https://file"))
           {| Sim.clock := 1000.025; Sim.calls := 3 |});
    [lia | reflexivity | vm_compute; reflexivity | reflexivity
    | reflexivity | lia].
Defined.

(** PENDING, then "canceled": the second fetch raises. *)
Lemma wait_for_job_failed_status_witness :
  exists tr,
    Examples.poll (Examples.scripted ["PENDING"; "canceled"]) "COMPLETED"
      ["FAILED"; "CANCELED"] 5
    = (Some (Raise (ApiError 500
                      (PStr "Job job-42 en échec: canceled") None)),
       tr, {| Sim.clock := 1000.01; Sim.calls := 2 |}) /\
    fetch_calls tr = 2 /\
    kinds tr = (CTime :: round_calls 1.5 1 0.01 ++ [CFetch])%list /\
    str_in "job-42" "Job job-42 en échec: canceled" = true /\
    str_in "canceled" "Job job-42 en échec: canceled" = true /\
    str_in "job-42" (ApiError_str 500 "Job job-42 en échec: canceled")
      = true /\
    str_in "canceled" (ApiError_str 500 "Job job-42 en échec: canceled")
      = true.
Proof.
  apply (@wait_for_job_failed_status _ Sim.time_time Sim.time_sleep
           Sim.float_str upper (Examples.scripted ["PENDING"; "canceled"])
           "job-42" 0.01 0.1 1.5 "COMPLETED" ["FAILED"; "CANCELED"] 1
           Sim.start 1000 Sim.start
           {| Sim.clock := 1000.01; Sim.calls := 1 |}
           (Sim.job "job-42" "canceled" None)
           {| Sim.clock := 1000.01; Sim.calls := 2 |} "CANCELED");
    [exact upper_idem | reflexivity | vm_compute; reflexivity | reflexivity
    | simpl; tauto | reflexivity | discriminate | lia].
Defined.

(** [test_wait_for_job_timeout]: after one sleep of 0.01 the next delay,
    0.015, no longer fits in 0.02. *)
Lemma wait_for_job_timeout_before_sleep_witness :
  let msg := "Timeout après 0.02s en attendant le job job-42" in
  (exists tr,
     TestClientBasic.test_wait_for_job_timeout 5
     = (Some (Raise (TimeoutError msg)), tr,
        {| Sim.clock := 1000.01; Sim.calls := 2 |}) /\
     kinds tr = (CTime :: round_calls 1.5 1 0.01 ++ [CFetch; CTime])%list /\
     length (slept tr) = 1) /\
  is_ApiError (TimeoutError msg) = false /\
  str_in "0.02" msg = true /\
  str_in "job-42" msg = true /\
  (forall fuel' w,
     no_overshoot 0.02
       (trace_of (wait_for_job Sim.time_time Sim.time_sleep Sim.float_str upper
                    (Sim.always "PENDING") "job-42" 0.01 0.02 1.5
                    "COMPLETED" ["FAILED"; "CANCELED"] fuel' w)) = true).
Proof.
  apply (@wait_for_job_timeout_before_sleep _ Sim.time_time Sim.time_sleep
           Sim.float_str upper (Sim.always "PENDING") "job-42" 0.01 0.02 1.5
           "COMPLETED" ["FAILED"; "CANCELED"] 1 Sim.start 1000 Sim.start
           {| Sim.clock := 1000.01; Sim.calls := 1 |}
           (Sim.job "job-42" "PENDING" None)
           {| Sim.clock := 1000.01; Sim.calls := 2 |} 1000.01
           {| Sim.clock := 1000.01; Sim.calls := 2 |});
    [reflexivity | vm_compute; reflexivity | reflexivity | reflexivity
    | reflexivity | reflexivity | vm_compute; reflexivity | lia].
Defined.

(** PENDING, then the stub fails to connect: that exception comes out. *)
Lemma wait_for_job_fetch_error_propagates_witness :
  exists tr,
    Examples.poll Examples.flaky "COMPLETED" ["FAILED"; "CANCELED"] 5
    = (Some (Raise (OtherError "ConnectError")), tr,
       {| Sim.clock := 1000.01; Sim.calls := 2 |}) /\
    kinds tr = (CTime :: round_calls 1.5 1 0.01 ++ [CFetch])%list /\
    fetch_calls tr = 2 /\
    length (slept tr) = 1.
Proof.
  apply (@wait_for_job_fetch_error_propagates _ Sim.time_time
           Sim.time_sleep Sim.float_str upper Examples.flaky "job-42" 0.01 0.1
           1.5 "COMPLETED" ["FAILED"; "CANCELED"] 1 Sim.start 1000
           Sim.start {| Sim.clock := 1000.01; Sim.calls := 1 |}
           (OtherError "ConnectError")
           {| Sim.clock := 1000.01; Sim.calls := 2 |});
    [reflexivity | vm_compute; reflexivity | reflexivity | lia].
Defined.

(** A job reporting "Failed" on the first fetch. *)
Lemma failed_job_error_has_status_500_witness :
  exists tr e,
    Examples.poll (Sim.always "Failed") "COMPLETED" ["FAILED"; "CANCELED"] 5
    = (Some (Raise e), tr, {| Sim.clock := 1000; Sim.calls := 1 |}) /\
    is_ApiError e = true /\
    exn_status_code e = Some 500%Z /\
    exn_response e = None /\
    (forall resp, status_code resp = 500%Z ->
       exists e', _handle resp = Raise e' /\
                  is_ApiError e' = true /\
                  exn_status_code e' = exn_status_code e /\
                  exn_response e' = Some resp /\
                  exn_response e' <> exn_response e) /\
    (forall resp, status_code resp = 500%Z ->
       json resp
       = Some (PDict [("message",
                       PStr (failed_message "job-42"
                               (Sim.job "job-42" "Failed" None)))]) ->
       exists e', _handle resp = Raise e' /\
                  exn_message e' = exn_message e).
Proof.
  apply (@failed_job_error_has_status_500 _ Sim.time_time Sim.time_sleep
           Sim.float_str upper (Sim.always "Failed") "job-42" 0.01 0.1 1.5
           "COMPLETED" ["FAILED"; "CANCELED"] 0 Sim.start 1000 Sim.start
           Sim.start (Sim.job "job-42" "Failed" None)
           {| Sim.clock := 1000; Sim.calls := 1 |});
    [reflexivity | reflexivity | reflexivity | reflexivity | reflexivity
    | lia].
Defined.

(** 404 with [{"message": "not found"}]. *)
Lemma handle_error_response_witness :
  exists msg,
    _handle Examples.resp_not_found
    = Raise (ApiError 404 msg (Some Examples.resp_not_found)) /\
    msg = PStr "not found".
Proof.
  destruct (handle_error_response Examples.resp_not_found)
    as (msg & Hraise & _ & _ & Hnf & _); [simpl; lia|].
  exists msg. split; [exact Hraise | apply Hnf; reflexivity].
Defined.

(** A PDF returned where a job or a report was expected. *)
Lemma typed_fetch_rejects_binary_witness :
  get_validation_report (Examples.get_always Examples.resp_pdf)
    Examples.reject_report Examples.client "val-1" tt
  = (Raise (ApiError 500
       (PStr "Réponse binaire inattendue pour un rapport JSON") None), tt)
  /\
  get_transformation (Examples.get_always Examples.resp_pdf)
    Examples.reject_job Examples.client "val-1" tt
  = (Raise (ApiError 500
       (PStr "Réponse binaire inattendue pour un job JSON") None), tt)
  /\
  get_generation (Examples.get_always Examples.resp_pdf)
    Examples.reject_job Examples.client "val-1" tt
  = (Raise (ApiError 500
       (PStr "Réponse binaire inattendue pour un job JSON") None), tt).
Proof.
  destruct (@typed_fetch_rejects_binary unit
              (Examples.get_always Examples.resp_pdf) Examples.reject_job
              Examples.reject_report Examples.client Examples.resp_pdf
              "val-1" tt tt) as [Hbin _]; [simpl; lia|].
  destruct (Hbin eq_refl) as (Hr & Ht & Hg).
  split; [apply Hr; reflexivity|].
  split; [apply Ht | apply Hg]; reflexivity.
Defined.

(** * Further properties of client.py *)

(** ** The base URL *)

Lemma rstrip_slash_slashes (k : nat) : rstrip_slash (slashes k) = "".
Proof.
  induction k as [|k IH]; simpl; [reflexivity|]. now rewrite IH.
Qed.

Lemma rstrip_slash_app_slashes (s : string) (k : nat) :
  rstrip_slash (s ++ slashes k) = rstrip_slash s.
Proof.
  induction s as [|c s IH]; simpl; [apply rstrip_slash_slashes|].
  now rewrite IH.
Qed.

(** X1: [rstrip("/")] removes trailing slashes and nothing else: what is
    left does not end with a slash, and the argument is what is left
    followed by slashes only. *)
Theorem rstrip_slash_spec (s : string) :
  ends_with_slash (rstrip_slash s) = false /\
  exists k, s = rstrip_slash s ++ slashes k.
Proof.
  induction s as [|c s IH].
  - split; [reflexivity | now exists 0].
  - destruct IH as [IHe [k IHk]]. simpl.
    destruct (rstrip_slash s) as [|c' r] eqn:Hr; simpl.
    + destruct (Ascii.eqb_spec c "/") as [->|Hc]; simpl.
      * split; [reflexivity|]. exists (S k). simpl. now rewrite IHk at 1.
      * split; [now apply Ascii.eqb_neq|]. exists k. now rewrite IHk at 1.
    + split; [exact IHe|]. exists k. now rewrite IHk at 1.
Qed.

(** X2: trailing slashes of [base_url] make no difference to the client
    that [__init__] builds, hence to any URL it requests. *)
Theorem init_ignores_trailing_slashes (api_key bearer_token : option string)
    (base_url : string) (k : nat) :
  InvoiceIQClient_init api_key bearer_token (base_url ++ slashes k)
  = InvoiceIQClient_init api_key bearer_token base_url.
Proof.
  unfold InvoiceIQClient_init. now rewrite rstrip_slash_app_slashes.
Qed.

(** ** Headers *)

Lemma dict_lookup_set (d : list (string * string)) (k v k' : string) :
  dict_lookup (dict_set d k v) k'
  = if k =? k' then Some v else dict_lookup d k'.
Proof.
  induction d as [|[k0 v0] rest IH]; simpl; [reflexivity|].
  destruct (String.eqb_spec k0 k) as [->|Hne]; simpl.
  - destruct (k =? k'); reflexivity.
  - rewrite IH. destruct (String.eqb_spec k0 k') as [->|Hne'];
      [|reflexivity].
    destruct (String.eqb_spec k k') as [->|_]; [now elim Hne | reflexivity].
Qed.

Lemma dict_lookup_update (extra : list (string * string)) (k : string) :
  forall d,
  dict_lookup (dict_update d extra) k
  = fold_left (fun acc kv => if fst kv =? k then Some (snd kv) else acc)
      extra (dict_lookup d k).
Proof.
  unfold dict_update.
  induction extra as [|[k0 v0] rest IH]; intros d; simpl; [reflexivity|].
  now rewrite IH, dict_lookup_set.
Qed.

Lemma fold_last_binding (extra : list (string * string)) (k : string) :
  forall init,
  fold_left (fun acc kv => if fst kv =? k then Some (snd kv) else acc)
    extra init
  = match last_binding extra k with
    | Some v => Some v
    | None => init
    end.
Proof.
  unfold last_binding.
  induction extra as [|[k0 v0] rest IH]; intros init; simpl; [reflexivity|].
  rewrite IH. rewrite (IH (if k0 =? k then Some v0 else None)).
  destruct (fold_left _ rest None); [reflexivity|].
  destruct (k0 =? k); reflexivity.
Qed.

Lemma dict_update_last_binding (d extra : list (string * string))
    (k : string) :
  dict_lookup (dict_update d extra) k
  = match last_binding extra k with
    | Some v => Some v
    | None => dict_lookup d k
    end.
Proof. now rewrite dict_lookup_update, fold_last_binding. Qed.

(** The credential headers, as a list. *)
Lemma headers_none (self : InvoiceIQClient) :
  _headers self None
  = ((if str_truthy (_api_key self)
      then [("X-API-KEY", str_or_empty (_api_key self))] else [])
     ++ (if str_truthy (_bearer self)
         then [("Authorization",
                ("Bearer " ++ str_or_empty (_bearer self))%string)]
         else []))%list.
Proof.
  unfold _headers.
  destruct (str_truthy (_api_key self)); destruct (str_truthy (_bearer self));
    reflexivity.
Qed.

Lemma headers_some (self : InvoiceIQClient) (e : string * string)
    (es : list (string * string)) :
  _headers self (Some (e :: es)) = dict_update (_headers self None) (e :: es).
Proof. reflexivity. Qed.

Lemma if_truthy_str_or_empty (o : option string) :
  str_truthy o = true -> Some (str_or_empty o) = if_truthy o.
Proof.
  unfold if_truthy. intros H. rewrite H.
  destruct o; [reflexivity | discriminate].
Qed.

(** X3: without extra headers, [_headers] holds [X-API-KEY] exactly when
    the API key is set and not empty, [Authorization] with the value
    ["Bearer " + token] exactly when the token is set and not empty, and
    nothing else. *)
Theorem headers_credentials (self : InvoiceIQClient) (k : string) :
  dict_lookup (_headers self None) k
  = if k =? "X-API-KEY" then if_truthy (_api_key self)
    else if k =? "Authorization"
         then option_map (append "Bearer ") (if_truthy (_bearer self))
         else None.
Proof.
  rewrite headers_none.
  rewrite (String.eqb_sym k "X-API-KEY"), (String.eqb_sym k "Authorization").
  destruct (str_truthy (_api_key self)) eqn:Ha;
    destruct (str_truthy (_bearer self)) eqn:Hb;
    cbn [app dict_lookup];
    destruct ("X-API-KEY" =? k) eqn:E1;
    destruct ("Authorization" =? k) eqn:E2;
    try (apply String.eqb_eq in E1; apply String.eqb_eq in E2;
         rewrite <- E1 in E2; discriminate);
    rewrite <- ?(if_truthy_str_or_empty _ Ha),
            <- ?(if_truthy_str_or_empty _ Hb);
    try reflexivity;
    unfold if_truthy; rewrite ?Ha, ?Hb; reflexivity.
Qed.

(** X4: a header given in [extra] is sent with the value of its last
    binding there, also when a credential header has the same name; every
    other header is as without [extra]. *)
Theorem headers_extra (self : InvoiceIQClient)
    (extra : list (string * string)) (k : string) :
  dict_lookup (_headers self (Some extra)) k
  = match last_binding extra k with
    | Some v => Some v
    | None => dict_lookup (_headers self None) k
    end.
Proof.
  destruct extra as [|e es]; [reflexivity|].
  rewrite headers_some, dict_lookup_update.
  apply fold_last_binding.
Qed.

(** ** What [_handle] returns and raises *)

(** X5: [_handle] raises an [ApiError] exactly for a status of 400 or
    more, always with that status and the response attached; below 400 it
    can only raise the decoder's exception, on a body announced as JSON
    that does not decode; a decoded structure is returned only for a JSON
    content type, and bytes only otherwise, and they are [resp.content]. *)
Theorem handle_outcome (resp : Response) :
  ((400 <= status_code resp)%Z <->
   exists e, _handle resp = Raise e /\ is_ApiError e = true) /\
  (forall e, _handle resp = Raise e /\ is_ApiError e = true ->
     exn_status_code e = Some (status_code resp) /\
     exn_response e = Some resp) /\
  (forall e, _handle resp = Raise e /\ is_ApiError e = false ->
     (status_code resp < 400)%Z /\ json resp = None /\
     str_in "application/json" (content_type resp) = true) /\
  (forall d, _handle resp = Ok (Json d) ->
     (status_code resp < 400)%Z /\ json resp = Some d /\
     str_in "application/json" (content_type resp) = true) /\
  (forall b, _handle resp = Ok (Bytes b) ->
     (status_code resp < 400)%Z /\ b = content resp /\
     str_in "application/json" (content_type resp) = false).
Proof.
  unfold _handle.
  destruct (Z.leb_spec 400 (status_code resp)) as [Hs|Hs].
  - repeat split; try (intros; lia); try discriminate.
    + intros _. eexists. split; reflexivity.
    + destruct H as [H _]. now injection H as <-.
    + destruct H as [H _]. now injection H as <-.
    + destruct H as [H H']. injection H as <-. discriminate.
    + destruct H as [H H']. injection H as <-. discriminate.
    + destruct H as [H H']. injection H as <-. discriminate.
  - destruct (str_in "application/json" (content_type resp));
      [destruct (json resp) as [d|]|].
    all: repeat split; try (intros; lia); try discriminate;
      try congruence.
    all: try (intros [e [H H']]; try discriminate; injection H as <-;
              discriminate).
    all: try (destruct H as [H H']; try discriminate; injection H as <-;
              discriminate).
Qed.

(** X6: the message [_handle] extracts is falsy only when it is the raw
    text and that text is empty: an empty, null or zero [message] or
    [error] field is never the message. *)
Theorem error_message_falsy_only_if_text_empty (resp : Response) :
  truthy (error_message resp) = true \/
  (error_message resp = PStr "" /\ text resp = "").
Proof.
  assert (Htext : truthy (PStr (text resp)) = true \/
                  (PStr (text resp) = PStr "" /\ text resp = "")).
  { simpl. destruct (String.eqb_spec (text resp) "") as [->|Hne];
      [right; now split | now left]. }
  unfold error_message, py_or.
  destruct (json resp) as [[| | | | | |data]|]; try exact Htext.
  destruct (truthy (dict_get data "message")) eqn:Hm;
    cbv iota; [rewrite Hm; now left|].
  destruct (truthy (dict_get data "error")) eqn:He; [now left | exact Htext].
Qed.

(** ** The requests the operations send *)

Section RequestFacts.

Variable W : Type.
Variable client_get : string -> list (string * string) -> St W Response.
Variable client_get_params :
  string -> list (string * string) -> list (string * pyvalue) ->
  St W Response.
Variable client_post :
  string -> list (string * string) ->
  list (string * list Byte.byte) -> list (string * string) -> St W Response.
Variable client_post_json :
  string -> list (string * string) -> pyvalue -> St W Response.
Variable open_rb : string -> St W (list Byte.byte).
Variable Job_model_validate : pyvalue -> result Job.
Variable ValidationReport_model_validate : pyvalue -> result ValidationReport.
Variable model_dump_json : TransformationMetadata -> string.
Variable model_dump : TransformationMetadata -> pyvalue.
Variable json_dumps : pyvalue -> result string.
Variable self : InvoiceIQClient.

Local Abbreviation rec_open := (fun path => Recording.quiet (open_rb path)).
Local Abbreviation rec_get := (Recording.get client_get).
Local Abbreviation rec_post := (Recording.post client_post).

(** X7: when the server answers a typed fetch with a status of 400 or
    more, the operation raises the [ApiError] of [_handle], with that
    status, the extracted message and the response, whatever the record
    parser would do. *)
Theorem typed_fetch_http_error (resp : Response) (some_id : string)
    (w w1 : W) :
  (400 <= status_code resp)%Z ->
  let hdrs := _headers self None in
  let err := ApiError (status_code resp) (error_message resp) (Some resp) in
  (client_get (_base_url self ++ "/v1/validations/" ++ some_id ++ "/report")
     hdrs w = (Ok resp, w1) ->
   get_validation_report client_get ValidationReport_model_validate self
     some_id w = (Raise err, w1)) /\
  (client_get (_base_url self ++ "/api/v1/transformations/" ++ some_id)
     hdrs w = (Ok resp, w1) ->
   get_transformation client_get Job_model_validate self some_id w
   = (Raise err, w1)) /\
  (client_get (_base_url self ++ "/api/v1/generations/" ++ some_id)
     hdrs w = (Ok resp, w1) ->
   get_generation client_get Job_model_validate self some_id w
   = (Raise err, w1)).
Proof.
  intros Hs hdrs err.
  assert (Hh : _handle resp = Raise err).
  { unfold _handle. apply Z.leb_le in Hs. now rewrite Hs. }
  unfold get_validation_report, get_transformation, get_generation,
    st_bind, st_lift.
  fold hdrs. repeat split; intros ->; now rewrite Hh.
Qed.

Lemma get_transformation_sent (some_id : string) (w : Recording.world W) :
  Recording.sent
    (snd (get_transformation rec_get Job_model_validate self some_id w))
  = (Recording.sent w
       ++ [ReqGet (_base_url self ++ "/api/v1/transformations/" ++ some_id)
             (_headers self None) []])%list.
Proof.
  unfold get_transformation, st_bind, st_lift, st_raise, Recording.get,
    Recording.sending, Recording.sent.
  destruct (client_get _ _ (fst w)) as [[resp|e] w1]; [|reflexivity].
  destruct (_handle resp) as [[d|b]|e]; reflexivity.
Qed.

(** X8: each typed fetch sends exactly one request, whatever comes back
    (an exception of the transport, an HTTP error, bytes, JSON the parser
    accepts or rejects): a GET of the operation's path under the base URL,
    with the credential headers and no query parameter. *)
Theorem typed_fetch_sends_one_get (some_id : string) (w : W)
    (log : list request) :
  let hdrs := _headers self None in
  Recording.sent
    (snd (get_validation_report rec_get ValidationReport_model_validate
            self some_id (w, log)))
  = (log ++ [ReqGet (_base_url self ++ "/v1/validations/" ++ some_id
                       ++ "/report") hdrs []])%list /\
  Recording.sent
    (snd (get_transformation rec_get Job_model_validate self some_id
            (w, log)))
  = (log ++ [ReqGet (_base_url self ++ "/api/v1/transformations/" ++ some_id)
               hdrs []])%list /\
  Recording.sent
    (snd (get_generation rec_get Job_model_validate self some_id (w, log)))
  = (log ++ [ReqGet (_base_url self ++ "/api/v1/generations/" ++ some_id)
               hdrs []])%list.
Proof.
  intros hdrs.
  unfold get_validation_report, get_transformation, get_generation,
    st_bind, st_lift, st_raise, Recording.get, Recording.sending,
    Recording.sent.
  fold hdrs. cbn [fst snd].
  repeat split.
  - destruct (client_get _ hdrs w) as [[resp|e] w1]; [|reflexivity].
    destruct (_handle resp) as [[d|b]|e]; reflexivity.
  - destruct (client_get _ hdrs w) as [[resp|e] w1]; [|reflexivity].
    destruct (_handle resp) as [[d|b]|e]; reflexivity.
  - destruct (client_get _ hdrs w) as [[resp|e] w1]; [|reflexivity].
    destruct (_handle resp) as [[d|b]|e]; reflexivity.
Qed.

Local Abbreviation rec_post_json := (Recording.post_json client_post_json).
Local Abbreviation rec_get_params := (Recording.get_params client_get_params).

(** The headers of the two upload operations. *)
Lemma headers_with_idempotency_key (idempotency_key : option string) :
  let hdrs :=
    _headers self
      (if str_truthy idempotency_key
       then Some [("Idempotency-Key", str_or_empty idempotency_key)]
       else None) in
  dict_lookup hdrs "Idempotency-Key" = if_truthy idempotency_key /\
  dict_lookup hdrs "X-API-KEY" = if_truthy (_api_key self) /\
  dict_lookup hdrs "Authorization"
  = option_map (append "Bearer ") (if_truthy (_bearer self)).
Proof.
  cbv zeta.
  assert (Hbase :
    dict_lookup (_headers self None) "Idempotency-Key" = None /\
    dict_lookup (_headers self None) "X-API-KEY" = if_truthy (_api_key self)
    /\
    dict_lookup (_headers self None) "Authorization"
    = option_map (append "Bearer ") (if_truthy (_bearer self))).
  { rewrite headers_none. unfold if_truthy.
    destruct (str_truthy (_api_key self)) eqn:Ha;
      destruct (str_truthy (_bearer self)) eqn:Hb;
      repeat split;
      try (destruct (_api_key self); [reflexivity | discriminate]);
      try (destruct (_bearer self); [reflexivity | discriminate]). }
  destruct Hbase as (H0 & H1 & H2).
  destruct (str_truthy idempotency_key) eqn:Hk.
  - rewrite headers_some, !dict_update_last_binding, H1, H2.
    rewrite <- (if_truthy_str_or_empty _ Hk). repeat split.
  - unfold if_truthy. rewrite Hk. now rewrite H0, H1, H2.
Qed.

(** X9: when the file opens, [validate_document] sends exactly one
    request, a multipart POST to [/v1/validations] with the file part; the
    [Idempotency-Key] header and the [callbackUrl] and [referenceId] form
    fields are present exactly when the option is given and not empty, the
    credential headers are kept, and there is no other form field. The
    outcome is that of [_handle] on the response. *)
Theorem validate_document_request (file_path : string)
    (idempotency_key callback_url reference_id : option string)
    (w : W) (log : list request) (fp : list Byte.byte) (w1 : W) :
  open_rb file_path w = (Ok fp, w1) ->
  exists hdrs data,
    validate_document rec_post rec_open self file_path idempotency_key
      callback_url reference_id (w, log)
    = (let '(r, w2) :=
         client_post (_base_url self ++ "/v1/validations") hdrs
           [("file", fp)] data w1 in
       (match r with Ok resp => _handle resp | Raise e => Raise e end,
        (w2, (log ++ [ReqPostMultipart (_base_url self ++ "/v1/validations")
                        hdrs [("file", fp)] data])%list))) /\
    dict_lookup hdrs "Idempotency-Key" = if_truthy idempotency_key /\
    dict_lookup hdrs "X-API-KEY" = if_truthy (_api_key self) /\
    dict_lookup hdrs "Authorization"
    = option_map (append "Bearer ") (if_truthy (_bearer self)) /\
    dict_lookup data "callbackUrl" = if_truthy callback_url /\
    dict_lookup data "referenceId" = if_truthy reference_id /\
    (forall k, k <> "callbackUrl" -> k <> "referenceId" ->
       dict_lookup data k = None).
Proof.
  intros Ho.
  destruct (headers_with_idempotency_key idempotency_key) as (Hi & Ha & Hb).
  exists (_headers self
            (if str_truthy idempotency_key
             then Some [("Idempotency-Key", str_or_empty idempotency_key)]
             else None)).
  exists (let data :=
            if str_truthy callback_url
            then dict_set [] "callbackUrl" (str_or_empty callback_url)
            else [] in
          if str_truthy reference_id
          then dict_set data "referenceId" (str_or_empty reference_id)
          else data).
  split; [|split; [exact Hi|split; [exact Ha|split; [exact Hb|]]]].
  - unfold validate_document, st_bind, st_lift, Recording.quiet,
      Recording.post, Recording.sending.
    cbn [fst snd]. rewrite Ho. cbv zeta. cbn [fst snd].
    destruct (client_post _ _ _ _ w1) as [[resp|e] w2]; reflexivity.
  - cbv zeta. unfold if_truthy.
    destruct (str_truthy callback_url) eqn:Hc;
      destruct (str_truthy reference_id) eqn:Hr;
      rewrite ?dict_lookup_set; cbn [dict_lookup];
      (split; [|split];
       [ try (destruct callback_url; [reflexivity | discriminate]);
         reflexivity
       | try (destruct reference_id; [reflexivity | discriminate]);
         reflexivity
       | intros k Hk1 Hk2; rewrite ?dict_lookup_set; cbn [dict_lookup];
         repeat match goal with
                | |- context [?a =? k] =>
                    destruct (String.eqb_spec a k);
                    [subst; congruence|]
                end; reflexivity ]).
Qed.

(** X10: when the metadata serializes and the file opens, [transform_pdf]
    sends exactly one request, a multipart POST to
    [/api/v1/transformations] with the file part and a single form field,
    [metadata], holding the serialized string ([model_dump_json] of a
    model, [json.dumps] of a dict); headers are as for
    [validate_document]. *)
Theorem transform_pdf_request (file_path : string)
    (metadata : TransformationMetadata + pyvalue)
    (idempotency_key : option string) (metadata_str : string)
    (w : W) (log : list request) (fp : list Byte.byte) (w1 : W) :
  match metadata with
  | inl m => Ok (model_dump_json m)
  | inr d => json_dumps d
  end = Ok metadata_str ->
  open_rb file_path w = (Ok fp, w1) ->
  exists hdrs,
    transform_pdf rec_post rec_open model_dump_json json_dumps self
      file_path metadata idempotency_key (w, log)
    = (let '(r, w2) :=
         client_post (_base_url self ++ "/api/v1/transformations") hdrs
           [("file", fp)] [("metadata", metadata_str)] w1 in
       (match r with Ok resp => _handle resp | Raise e => Raise e end,
        (w2, (log ++ [ReqPostMultipart
                        (_base_url self ++ "/api/v1/transformations") hdrs
                        [("file", fp)] [("metadata", metadata_str)]])%list)))
    /\
    dict_lookup hdrs "Idempotency-Key" = if_truthy idempotency_key /\
    dict_lookup hdrs "X-API-KEY" = if_truthy (_api_key self) /\
    dict_lookup hdrs "Authorization"
    = option_map (append "Bearer ") (if_truthy (_bearer self)).
Proof.
  intros Hm Ho.
  destruct (headers_with_idempotency_key idempotency_key) as (Hi & Ha & Hb).
  exists (_headers self
            (if str_truthy idempotency_key
             then Some [("Idempotency-Key", str_or_empty idempotency_key)]
             else None)).
  split; [|split; [exact Hi|split; [exact Ha|exact Hb]]].
  unfold transform_pdf, st_bind, st_lift, Recording.quiet,
    Recording.post, Recording.sending.
  rewrite Hm. cbn [fst snd]. rewrite Ho. cbn [fst snd].
  destruct (client_post _ _ _ _ w1) as [[resp|e] w2]; reflexivity.
Qed.


(** X13: [generate_invoice] sends exactly one request, a JSON POST to
    [/api/v1/generations] whose body is [model_dump] of a model or the dict
    as given, with [Content-Type: application/json] and the credential
    headers. The outcome is that of [_handle] on the response. *)
Theorem generate_invoice_request
    (payload : TransformationMetadata + pyvalue) (w : W)
    (log : list request) :
  exists hdrs,
    generate_invoice rec_post_json model_dump self payload (w, log)
    = (let body := match payload with inl m => model_dump m | inr d => d end in
       let '(r, w2) :=
         client_post_json (_base_url self ++ "/api/v1/generations") hdrs
           body w in
       (match r with Ok resp => _handle resp | Raise e => Raise e end,
        (w2, (log ++ [ReqPostJson (_base_url self ++ "/api/v1/generations")
                        hdrs body])%list))) /\
    dict_lookup hdrs "Content-Type" = Some "application/json" /\
    dict_lookup hdrs "X-API-KEY" = if_truthy (_api_key self) /\
    dict_lookup hdrs "Authorization"
    = option_map (append "Bearer ") (if_truthy (_bearer self)).
Proof.
  exists (_headers self (Some [("Content-Type", "application/json")])).
  split.
  2:{ rewrite headers_some, !dict_update_last_binding, headers_none.
      unfold if_truthy.
      destruct (str_truthy (_api_key self)) eqn:Ha;
        destruct (str_truthy (_bearer self)) eqn:Hb;
        repeat split;
        try (destruct (_api_key self); [reflexivity | discriminate]);
        try (destruct (_bearer self); [reflexivity | discriminate]). }
  unfold generate_invoice, st_bind, st_lift, Recording.post_json,
    Recording.sending.
  cbn [fst snd]. cbv zeta.
  destruct (client_post_json _ _ _ w) as [[resp|e] w2]; reflexivity.
Qed.


End RequestFacts.

(** ** Every run of [wait_for_job] *)

Lemma sleeps_of_rounds bf n : forall delay,
  sleeps_of (round_calls bf n delay)
  = map (fun i => delay_after bf i delay) (seq 0 n).
Proof.
  induction n as [|n IH]; intros delay; [reflexivity|].
  cbn [round_calls]. unfold sleeps_of in *. cbn [flat_map app].
  rewrite IH. cbn [seq map]. f_equal.
  rewrite <- seq_shift, map_map. apply map_ext.
  intros i. symmetry. apply delay_after_S.
Qed.

Lemma sleeps_of_run bf n delay last :
  sleeps_of (CTime :: round_calls bf n delay ++ last)
  = (map (fun i => delay_after bf i delay) (seq 0 n) ++ sleeps_of last)%list.
Proof.
  unfold sleeps_of at 1. cbn [flat_map app]. rewrite flat_map_app.
  fold (sleeps_of (round_calls bf n delay)). fold (sleeps_of last).
  now rewrite sleeps_of_rounds.
Qed.

Section WaitForJobRuns.

Variable W : Type.
Variable time_time : W -> float * W.
Variable time_sleep : float -> St W unit.
Variable float_str : float -> string.
Variable str_upper : string -> string.
Variable fetch_fn : string -> St W Job.
Variable job_id : string.
Variables interval_seconds max_wait_seconds backoff_factor : float.
Variable completed_status : string.
Variable failed_statuses : list string.

Local Abbreviation loop :=
  (wait_loop time_time time_sleep float_str str_upper fetch_fn job_id
     max_wait_seconds backoff_factor completed_status failed_statuses).
Local Abbreviation poll :=
  (wait_for_job time_time time_sleep float_str str_upper fetch_fn job_id
     interval_seconds max_wait_seconds backoff_factor completed_status
     failed_statuses).
Local Abbreviation pending :=
  (pending_rounds time_time time_sleep str_upper fetch_fn job_id backoff_factor
     completed_status failed_statuses).
Local Abbreviation completed := (is_completed str_upper completed_status).
Local Abbreviation failed := (is_failed str_upper failed_statuses).

Lemma wait_loop_sleep_raises fuel deadline delay w job w1 now w2 e w3 :
  fetch_fn job_id w = (Ok job, w1) ->
  completed job = false ->
  failed job = false ->
  time_time w1 = (now, w2) ->
  (deadline <? now + delay)%float = false ->
  time_sleep delay w2 = (Raise e, w3) ->
  loop (S fuel) deadline delay w =
  (Some (Raise e),
   [EvFetch job_id (Ok job); EvTime now; EvSleep delay (Raise e)], w3).
Proof.
  intros Hf Hc Hx Ht Hd Hs. simpl. unfold bind, call, perform, time, sleep.
  rewrite Hf, Hc, Hx, Ht, Hd. unfold perform. rewrite Hs. reflexivity.
Qed.

Lemma wait_loop_shape fuel : forall deadline delay w,
  exists n last,
    kinds (trace_of (loop fuel deadline delay w))
    = (round_calls backoff_factor n delay ++ last)%list /\
    n <= fuel /\
    (fst (fst (loop fuel deadline delay w)) = None -> n = fuel) /\
    ends_as str_upper backoff_factor completed_status n delay
      (fst (fst (loop fuel deadline delay w))) last.
Proof.
  induction fuel as [|fuel IH]; intros deadline delay w.
  - exists 0, []. repeat split; reflexivity.
  - destruct (fetch_fn job_id w) as [[job|e] w1] eqn:Hf.
    2:{ rewrite wait_loop_fetch_raises with (1 := Hf).
        exists 0, [CFetch]. repeat split; try lia; try discriminate.
        now left. }
    destruct (completed job) eqn:Hc.
    { rewrite wait_loop_completed with (1 := Hf) (2 := Hc).
      exists 0, [CFetch]. repeat split; try lia; try discriminate.
      exact Hc. }
    destruct (failed job) eqn:Hx.
    { rewrite wait_loop_failed with (1 := Hf) (2 := Hc) (3 := Hx).
      exists 0, [CFetch]. repeat split; try lia; try discriminate.
      now left. }
    destruct (time_time w1) as [now w2] eqn:Ht.
    destruct (deadline <? now + delay)%float eqn:Hd.
    { rewrite wait_loop_timeout
        with (1 := Hf) (2 := Hc) (3 := Hx) (4 := Ht) (5 := Hd).
      exists 0, [CFetch; CTime]. repeat split; try lia; try discriminate.
      right. now left. }
    destruct (time_sleep delay w2) as [[u|e] w3] eqn:Hs.
    + rewrite wait_loop_sleeps
        with (1 := Hf) (2 := Hc) (3 := Hx) (4 := Ht) (5 := Hd) (6 := Hs).
      destruct (IH deadline (delay * backoff_factor)%float w3)
        as (n & last & Hk & Hn & Hnone & Hend).
      destruct (loop fuel deadline (delay * backoff_factor)%float w3)
        as [[r tr] w4].
      unfold trace_of in *. cbn [fst snd] in *.
      exists (S n), last. split; [|split; [lia|split]].
      * cbn [kinds map kind_of round_calls app]. unfold kinds in Hk.
        now rewrite Hk.
      * intros Hr. now rewrite (Hnone Hr).
      * unfold ends_as in *. rewrite delay_after_S. exact Hend.
    + rewrite wait_loop_sleep_raises
        with (1 := Hf) (2 := Hc) (3 := Hx) (4 := Ht) (5 := Hd) (6 := Hs).
      exists 0, [CFetch; CTime; CSleep delay].
      repeat split; try lia; try discriminate.
      right. now right.
Qed.

Lemma wait_loop_returns_last_fetch fuel : forall deadline delay w job tr w',
  loop fuel deadline delay w = (Some (Ok job), tr, w') ->
  exists tr0, tr = (tr0 ++ [EvFetch job_id (Ok job)])%list.
Proof.
  induction fuel as [|fuel IH]; intros deadline delay w job tr w' Hrun;
    [discriminate|].
  destruct (fetch_fn job_id w) as [[j|e] w1] eqn:Hf.
  2:{ rewrite wait_loop_fetch_raises with (1 := Hf) in Hrun. discriminate. }
  destruct (completed j) eqn:Hc.
  { rewrite wait_loop_completed with (1 := Hf) (2 := Hc) in Hrun.
    injection Hrun as <- <- <-. now exists []. }
  destruct (failed j) eqn:Hx.
  { rewrite wait_loop_failed with (1 := Hf) (2 := Hc) (3 := Hx) in Hrun.
    discriminate. }
  destruct (time_time w1) as [now w2] eqn:Ht.
  destruct (deadline <? now + delay)%float eqn:Hd.
  { rewrite wait_loop_timeout
      with (1 := Hf) (2 := Hc) (3 := Hx) (4 := Ht) (5 := Hd) in Hrun.
    discriminate. }
  destruct (time_sleep delay w2) as [[u|e] w3] eqn:Hs.
  - rewrite wait_loop_sleeps
      with (1 := Hf) (2 := Hc) (3 := Hx) (4 := Ht) (5 := Hd) (6 := Hs)
      in Hrun.
    destruct (loop fuel deadline (delay * backoff_factor)%float w3)
      as [[r tr1] w4] eqn:Hrec.
    injection Hrun as -> <- <-.
    destruct (IH _ _ _ _ _ _ Hrec) as [tr0 ->].
    now exists (EvFetch job_id (Ok j) :: EvTime now :: EvSleep delay (Ok u)
                  :: tr0).
  - rewrite wait_loop_sleep_raises
      with (1 := Hf) (2 := Hc) (3 := Hx) (4 := Ht) (5 := Hd) (6 := Hs)
      in Hrun.
    discriminate.
Qed.

Lemma wait_for_job_shape fuel w :
  exists n last,
    kinds (trace_of (poll fuel w))
    = (CTime :: round_calls backoff_factor n interval_seconds ++ last)%list /\
    n <= fuel /\
    (fst (fst (poll fuel w)) = None -> n = fuel) /\
    ends_as str_upper backoff_factor completed_status n interval_seconds
      (fst (fst (poll fuel w))) last.
Proof.
  unfold wait_for_job, bind, time.
  destruct (time_time w) as [t0 w1].
  destruct (wait_loop_shape fuel (t0 + max_wait_seconds)%float
              interval_seconds w1) as (n & last & Hk & Hn & Hnone & Hend).
  destruct (loop fuel (t0 + max_wait_seconds)%float interval_seconds w1)
    as [[r tr] w2].
  unfold trace_of in *. cbn [fst snd app] in *.
  exists n, last. repeat split; trivial.
  cbn [kinds map kind_of]. unfold kinds in Hk. now rewrite Hk.
Qed.

(** X15: whatever the outside world does, a run of [wait_for_job] reads
    the clock once, makes some full rounds (fetch, clock reading, sleep of
    the delay then in force) and ends in one of these ways: with the fetch
    alone, when a job is returned, the job failed or the fetch raised;
    with the fetch and a clock reading, on a timeout; with these and a
    sleep, when the sleep raised. A run that is still going has made as
    many rounds as it had fuel. So every finished run has fetched at least
    once, also when [max_wait_seconds] is zero or negative. *)
Theorem wait_for_job_run_shape (fuel : nat) (w : W) :
  exists n last,
    kinds (trace_of (poll fuel w))
    = (CTime :: round_calls backoff_factor n interval_seconds ++ last)%list /\
    n <= fuel /\
    (fst (fst (poll fuel w)) = None -> n = fuel) /\
    ends_as str_upper backoff_factor completed_status n interval_seconds
      (fst (fst (poll fuel w))) last /\
    (fst (fst (poll fuel w)) <> None ->
     fetch_calls (trace_of (poll fuel w)) = S n).
Proof.
  destruct (wait_for_job_shape fuel w) as (n & last & Hk & Hn & Hnone & Hend).
  exists n, last. repeat split; trivial.
  intros Hsome. rewrite fetch_calls_run with (1 := Hk).
  destruct (fst (fst (poll fuel w))) as [[job|e]|]; [| |now elim Hsome].
  - destruct Hend as [-> _]. simpl. lia.
  - destruct Hend as [->|[->| ->]]; simpl; lia.
Qed.

(** X16: a job that [wait_for_job] returns passes the completed test
    ([job.status.upper()] equals [completed_status]) and is what the
    last call, a fetch, returned; the run made one fetch more than
    sleeps. *)
Theorem wait_for_job_returns_completed_job (fuel : nat) (w : W) (job : Job)
    (tr : list event) (w' : W) :
  poll fuel w = (Some (Ok job), tr, w') ->
  str_upper (status job) = completed_status /\
  (exists tr0, tr = (tr0 ++ [EvFetch job_id (Ok job)])%list) /\
  fetch_calls tr = S (length (slept tr)).
Proof.
  intros Hrun.
  destruct (wait_for_job_shape fuel w) as (n & last & Hk & _ & _ & Hend).
  rewrite Hrun in Hk, Hend. unfold trace_of in Hk. cbn [fst snd] in Hk, Hend.
  destruct Hend as [-> Hc]. repeat split.
  - now apply String.eqb_eq.
  - unfold wait_for_job, bind, time in Hrun.
    destruct (time_time w) as [t0 w1].
    destruct (loop fuel (t0 + max_wait_seconds)%float interval_seconds w1)
      as [[r tr1] w2] eqn:Hloop.
    injection Hrun as -> <- <-.
    destruct (wait_loop_returns_last_fetch _ _ _ _ Hloop) as [tr0 ->].
    now exists (EvTime t0 :: tr0).
  - rewrite fetch_calls_run with (1 := Hk).
    rewrite slept_length_run with (1 := Hk). simpl. lia.
Qed.

(** X17: whatever the outside world does, the durations passed to
    [time.sleep] in a run are [interval_seconds], then that multiplied by
    [backoff_factor], and so on: the [i]-th one (from 0) is
    [interval_seconds] multiplied [i] times by [backoff_factor]. *)
Theorem wait_for_job_sleeps_on_schedule (fuel : nat) (w : W) :
  slept (trace_of (poll fuel w))
  = map (fun i => delay_after backoff_factor i interval_seconds)
      (seq 0 (length (slept (trace_of (poll fuel w))))).
Proof.
  destruct (wait_for_job_shape fuel w) as (n & last & Hk & _ & _ & Hend).
  unfold slept. rewrite Hk, !sleeps_of_run.
  rewrite length_app, length_map, length_seq.
  assert (Hlast : sleeps_of last = [] \/
                  sleeps_of last
                  = [delay_after backoff_factor n interval_seconds]).
  { destruct (fst (fst (poll fuel w))) as [[job|e]|]; cbn in Hend.
    - destruct Hend as [-> _]. now left.
    - destruct Hend as [->|[->| ->]]; [now left | now left | now right].
    - subst last. now left. }
  destruct Hlast as [-> | ->]; cbn [length].
  - now rewrite Nat.add_0_r, app_nil_r.
  - rewrite Nat.add_1_r, seq_S, map_app. reflexivity.
Qed.

(** X18: an exception raised by [time.sleep] is the outcome of
    [wait_for_job], unchanged, and that sleep is its last call. *)
Theorem wait_for_job_sleep_error_propagates n w0 t0 w1 w2 job w3 now w4
    e w5 :
  time_time w0 = (t0, w1) ->
  pending n (t0 + max_wait_seconds)%float interval_seconds w1 = Some w2 ->
  fetch_fn job_id w2 = (Ok job, w3) ->
  completed job = false ->
  failed job = false ->
  time_time w3 = (now, w4) ->
  (t0 + max_wait_seconds
     <? now + delay_after backoff_factor n interval_seconds)%float = false ->
  time_sleep (delay_after backoff_factor n interval_seconds) w4
  = (Raise e, w5) ->
  forall fuel, n < fuel ->
  exists tr,
    poll fuel w0 = (Some (Raise e), tr, w5) /\
    kinds tr
    = (CTime :: round_calls backoff_factor n interval_seconds
         ++ [CFetch; CTime;
             CSleep (delay_after backoff_factor n interval_seconds)])%list.
Proof.
  intros Ht Hp Hf Hc Hx Hnow Hd Hs fuel Hfuel.
  pose proof (fun m => wait_loop_sleep_raises m Hf Hc Hx Hnow Hd Hs)
    as Hlast.
  edestruct wait_for_job_last_round as (tr & Hrun & Hk);
    [exact Ht | exact Hp | exact Hlast | exact Hfuel |].
  exists tr. split; [exact Hrun | exact Hk].
Qed.

End WaitForJobRuns.

(** ** Polling through a typed fetch *)

Section PollingFacts.

Variable W : Type.
Variable time_time : W -> float * W.
Variable time_sleep : float -> St W unit.
Variable float_str : float -> string.
Variable str_upper : string -> string.
Variable client_get : string -> list (string * string) -> St W Response.
Variable Job_model_validate : pyvalue -> result Job.
Variable self : InvoiceIQClient.
Variable job_id : string.
Variables interval_seconds max_wait_seconds backoff_factor : float.
Variable completed_status : string.
Variable failed_statuses : list string.

Local Abbreviation job_url :=
  (_base_url self ++ "/api/v1/transformations/" ++ job_id).

(** X19: [wait_for_job(client.get_transformation, job_id)]: when the
    server answers a poll with a status of 400 or more, polling stops
    there and the [ApiError] of [_handle] comes out, with that status, the
    extracted message and the response. *)
Theorem polling_stops_on_http_error n w0 t0 w1 w2 resp w3 :
  time_time w0 = (t0, w1) ->
  pending_rounds time_time time_sleep str_upper
    (get_transformation client_get Job_model_validate self) job_id
    backoff_factor completed_status failed_statuses n
    (t0 + max_wait_seconds)%float interval_seconds w1 = Some w2 ->
  client_get job_url (_headers self None) w2 = (Ok resp, w3) ->
  (400 <= status_code resp)%Z ->
  forall fuel, n < fuel ->
  exists tr,
    wait_for_job time_time time_sleep float_str str_upper
      (get_transformation client_get Job_model_validate self) job_id
      interval_seconds max_wait_seconds backoff_factor completed_status
      failed_statuses fuel w0
    = (Some (Raise (ApiError (status_code resp) (error_message resp)
                      (Some resp))), tr, w3) /\
    fetch_calls tr = S n /\
    length (slept tr) = n.
Proof.
  intros Ht Hp Hget Hs fuel Hfuel.
  assert (Hf : get_transformation client_get Job_model_validate self job_id
                 w2
               = (Raise (ApiError (status_code resp) (error_message resp)
                           (Some resp)), w3)).
  { unfold get_transformation, st_bind, st_lift, _handle.
    apply Z.leb_le in Hs. now rewrite Hget, Hs. }
  pose proof (fun m =>
    wait_loop_fetch_raises time_time time_sleep float_str str_upper _ _
      max_wait_seconds backoff_factor completed_status failed_statuses m
      (t0 + max_wait_seconds)%float
      (delay_after backoff_factor n interval_seconds) _ Hf) as Hlast.
  edestruct wait_for_job_last_round as (tr & Hrun & Hk);
    [exact Ht | exact Hp | exact Hlast | exact Hfuel |].
  exists tr. cbn [kinds map kind_of] in Hk. repeat split.
  - exact Hrun.
  - rewrite fetch_calls_run with (1 := Hk). simpl. lia.
  - rewrite slept_length_run with (1 := Hk). simpl. lia.
Qed.

Local Abbreviation rec_time := (Recording.quiet_time time_time).
Local Abbreviation rec_sleep := (Recording.quiet_sleep time_sleep).
Local Abbreviation rec_fetch :=
  (get_transformation (Recording.get client_get) Job_model_validate self).
Local Abbreviation rec_loop :=
  (wait_loop rec_time rec_sleep float_str str_upper rec_fetch job_id
     max_wait_seconds backoff_factor completed_status failed_statuses).
Local Abbreviation poll_request := (ReqGet job_url (_headers self None) []).

Lemma fetch_calls_cons_fetch (r : result Job) (tr : list event) :
  fetch_calls (EvFetch job_id r :: tr) = S (fetch_calls tr).
Proof. reflexivity. Qed.

Lemma polling_loop_requests fuel : forall deadline delay w,
  Recording.sent (snd (rec_loop fuel deadline delay w))
  = (Recording.sent w
       ++ repeat poll_request
            (fetch_calls (trace_of (rec_loop fuel deadline delay w))))%list.
Proof.
  induction fuel as [|fuel IH]; intros deadline delay w.
  - cbn. now rewrite app_nil_r.
  - pose proof (get_transformation_sent client_get Job_model_validate self
                  job_id w) as Hsent.
    destruct (rec_fetch job_id w) as [[job|e] w1] eqn:Hf;
      cbn [snd] in Hsent.
    2:{ rewrite wait_loop_fetch_raises with (1 := Hf).
        unfold trace_of. cbn [fst snd]. now rewrite Hsent. }
    destruct (is_completed str_upper completed_status job) eqn:Hc.
    { rewrite wait_loop_completed with (1 := Hf) (2 := Hc).
      unfold trace_of. cbn [fst snd]. now rewrite Hsent. }
    destruct (is_failed str_upper failed_statuses job) eqn:Hx.
    { rewrite wait_loop_failed with (1 := Hf) (2 := Hc) (3 := Hx).
      unfold trace_of. cbn [fst snd]. now rewrite Hsent. }
    destruct (rec_time w1) as [now w2] eqn:Ht.
    assert (Hw2 : Recording.sent w2 = Recording.sent w1).
    { unfold Recording.quiet_time in Ht.
      destruct (time_time (fst w1)) as [t w']. now injection Ht as _ <-. }
    destruct (deadline <? now + delay)%float eqn:Hd.
    { rewrite wait_loop_timeout
        with (1 := Hf) (2 := Hc) (3 := Hx) (4 := Ht) (5 := Hd).
      unfold trace_of. cbn [fst snd]. now rewrite Hw2, Hsent. }
    destruct (rec_sleep delay w2) as [[u|e] w3] eqn:Hs.
    + assert (Hw3 : Recording.sent w3 = Recording.sent w2).
      { unfold Recording.quiet_sleep, Recording.quiet in Hs.
        destruct (time_sleep delay (fst w2)) as [r w'].
        now injection Hs as _ <-. }
      rewrite wait_loop_sleeps
        with (1 := Hf) (2 := Hc) (3 := Hx) (4 := Ht) (5 := Hd) (6 := Hs).
      specialize (IH deadline (delay * backoff_factor)%float w3).
      destruct (rec_loop fuel deadline (delay * backoff_factor)%float w3)
        as [[r tr] w4].
      unfold trace_of in *. cbn [fst snd] in *.
      rewrite IH, Hw3, Hw2, Hsent, fetch_calls_cons_fetch.
      cbn [repeat]. now rewrite <- app_assoc.
    + assert (Hw3 : Recording.sent w3 = Recording.sent w2).
      { unfold Recording.quiet_sleep, Recording.quiet in Hs.
        destruct (time_sleep delay (fst w2)) as [r w'].
        now injection Hs as _ <-. }
      rewrite wait_loop_sleep_raises
        with (1 := Hf) (2 := Hc) (3 := Hx) (4 := Ht) (5 := Hd) (6 := Hs).
      unfold trace_of. cbn [fst snd]. now rewrite Hw3, Hw2, Hsent.
Qed.

(** X20: [wait_for_job(client.get_transformation, job_id)] sends one
    request per fetch and no other: as many GETs of
    [/api/v1/transformations/{job_id}], with the credential headers, as
    the log has fetches. *)
Theorem polling_sends_one_get_per_fetch (fuel : nat) (w : W)
    (log : list request) :
  let run :=
    wait_for_job rec_time rec_sleep float_str str_upper rec_fetch job_id
      interval_seconds max_wait_seconds backoff_factor completed_status
      failed_statuses fuel (w, log) in
  Recording.sent (snd run)
  = (log ++ repeat poll_request (fetch_calls (trace_of run)))%list.
Proof.
  cbv zeta. unfold wait_for_job, bind, time.
  destruct (rec_time (w, log)) as [t0 w1] eqn:Ht.
  assert (Hw1 : Recording.sent w1 = log).
  { unfold Recording.quiet_time in Ht. cbn [fst snd] in Ht.
    destruct (time_time w) as [t w']. now injection Ht as _ <-. }
  pose proof (polling_loop_requests fuel (t0 + max_wait_seconds)%float
                interval_seconds w1) as Hloop.
  destruct (rec_loop fuel (t0 + max_wait_seconds)%float interval_seconds w1)
    as [[r tr] w2].
  unfold trace_of in *. cbn [fst snd] in *.
  now rewrite Hloop, Hw1.
Qed.

End PollingFacts.

(** ** The further properties at concrete inputs *)

(** A 404 on each typed fetch. *)
Lemma typed_fetch_http_error_witness :
  let err :=
    ApiError 404 (PStr "not found") (Some Examples.resp_not_found) in
  get_validation_report (Examples.get_always Examples.resp_not_found)
    Examples.reject_report Examples.client "val-1" tt = (Raise err, tt) /\
  get_transformation (Examples.get_always Examples.resp_not_found)
    Examples.reject_job Examples.client "val-1" tt = (Raise err, tt) /\
  get_generation (Examples.get_always Examples.resp_not_found)
    Examples.reject_job Examples.client "val-1" tt = (Raise err, tt).
Proof.
  destruct (@typed_fetch_http_error unit
              (Examples.get_always Examples.resp_not_found)
              Examples.reject_job Examples.reject_report Examples.client
              Examples.resp_not_found "val-1" tt tt) as (Hr & Ht & Hg);
    [simpl; lia|].
  split; [apply Hr; reflexivity|].
  split; [apply Ht | apply Hg]; reflexivity.
Defined.

(** [test_validate_document_headers]: API key, idempotency key and
    reference id. *)
Lemma validate_document_request_witness :
  exists hdrs data,
    Recording.sent
      (snd (validate_document (Recording.post Examples2.post_created)
              (fun path => Recording.quiet (Examples2.open_doc path))
              Examples.client "doc.pdf" (Some "abc-123") None (Some "R1")
              (tt, [])))
    = [ReqPostMultipart "https://api.invoiceiq.fr/v1/validations" hdrs
         [("file", Examples2.pdf_bytes)] data] /\
    dict_lookup hdrs "Idempotency-Key" = Some "abc-123" /\
    dict_lookup hdrs "X-API-KEY" = Some "KEY123" /\
    dict_lookup hdrs "Authorization" = None /\
    dict_lookup data "callbackUrl" = None /\
    dict_lookup data "referenceId" = Some "R1".
Proof.
  destruct (@validate_document_request unit Examples2.post_created
              Examples2.open_doc Examples.client "doc.pdf" (Some "abc-123")
              None (Some "R1") tt [] Examples2.pdf_bytes tt eq_refl)
    as (hdrs & data & Hrun & Hi & Ha & Hb & Hc & Hr & _).
  exists hdrs, data. rewrite Hrun.
  repeat split; assumption.
Defined.

(** [test_transform_pdf_multipart]: the metadata of [make_meta()]. *)
Lemma transform_pdf_request_witness :
  exists hdrs,
    Recording.sent
      (snd (transform_pdf (Recording.post Examples2.post_created)
              (fun path => Recording.quiet (Examples2.open_doc path))
              Examples2.dump_invoice_number Examples2.dumps_plain
              Examples.client "doc.pdf" (inl Examples2.make_meta) None
              (tt, [])))
    = [ReqPostMultipart "https://api.invoiceiq.fr/api/v1/transformations"
         hdrs [("file", Examples2.pdf_bytes)]
         [("metadata",
           Examples2.dump_invoice_number Examples2.make_meta)]] /\
    dict_lookup hdrs "Idempotency-Key" = None /\
    dict_lookup hdrs "X-API-KEY" = Some "KEY123".
Proof.
  destruct (@transform_pdf_request unit Examples2.post_created
              Examples2.open_doc Examples2.dump_invoice_number
              Examples2.dumps_plain Examples.client "doc.pdf"
              (inl Examples2.make_meta) None
              (Examples2.dump_invoice_number Examples2.make_meta)
              tt [] Examples2.pdf_bytes tt eq_refl eq_refl)
    as (hdrs & Hrun & Hi & Ha & _).
  exists hdrs. rewrite Hrun. repeat split; assumption.
Defined.



(** [test_wait_for_job_success]: the job returned is COMPLETED. *)
Lemma wait_for_job_returns_completed_job_witness :
  upper "COMPLETED" = "COMPLETED" /\
  (exists tr0,
     trace_of (TestClientBasic.test_wait_for_job_success 3)
     = (tr0 ++ [EvFetch "job-42"
                  (Ok (Sim.job "job-42" "COMPLETED"
                         (Some "https://file")))])%list) /\
  fetch_calls (trace_of (TestClientBasic.test_wait_for_job_success 3))
  = S (length (slept (trace_of
                        (TestClientBasic.test_wait_for_job_success 3)))).
Proof.
  apply (@wait_for_job_returns_completed_job _ Sim.time_time Sim.time_sleep
           Sim.float_str upper TestClientBasic.fake_get "job-42" 0.01 0.1 1.5
           "COMPLETED" ["FAILED"; "CANCELED"] 3 Sim.start
           (Sim.job "job-42" "COMPLETED" (Some "https://file"))
           (trace_of (TestClientBasic.test_wait_for_job_success 3))
           {| Sim.clock := 1000.025; Sim.calls := 3 |}).
  vm_compute. reflexivity.
Defined.

(** A negative interval: the first sleep raises. *)
Lemma wait_for_job_sleep_error_propagates_witness :
  exists tr,
    wait_for_job Sim.time_time Sim.time_sleep Sim.float_str upper
      (Sim.always "PENDING") "job-42" (-1) 0.1 1.5 "COMPLETED"
      ["FAILED"; "CANCELED"] 3 Sim.start
    = (Some (Raise (OtherError "ValueError")), tr,
       {| Sim.clock := 1000; Sim.calls := 1 |}) /\
    kinds tr
    = (CTime :: round_calls 1.5 0 (-1)
         ++ [CFetch; CTime; CSleep (delay_after 1.5 0 (-1))])%list.
Proof.
  apply (@wait_for_job_sleep_error_propagates _ Sim.time_time Sim.time_sleep
           Sim.float_str upper (Sim.always "PENDING") "job-42" (-1) 0.1 1.5
           "COMPLETED" ["FAILED"; "CANCELED"] 0 Sim.start 1000 Sim.start
           Sim.start (Sim.job "job-42" "PENDING" None)
           {| Sim.clock := 1000; Sim.calls := 1 |} 1000
           {| Sim.clock := 1000; Sim.calls := 1 |}
           (OtherError "ValueError")
           {| Sim.clock := 1000; Sim.calls := 1 |});
    [reflexivity | reflexivity | reflexivity | reflexivity | reflexivity
    | reflexivity | vm_compute; reflexivity | vm_compute; reflexivity | lia].
Defined.

(** PENDING on the first poll, 404 on the second. *)
Lemma polling_stops_on_http_error_witness :
  exists tr,
    wait_for_job Sim.time_time Sim.time_sleep Sim.float_str upper
      (get_transformation Examples2.get_then_not_found
         Examples2.job_of_fields Examples.client) "job-42" 0.01 0.1 1.5
      "COMPLETED" ["FAILED"; "CANCELED"] 5 Sim.start
    = (Some (Raise (ApiError 404 (PStr "not found")
                      (Some Examples.resp_not_found))), tr,
       {| Sim.clock := 1000.01; Sim.calls := 2 |}) /\
    fetch_calls tr = 2 /\
    length (slept tr) = 1.
Proof.
  apply (@polling_stops_on_http_error _ Sim.time_time Sim.time_sleep
           Sim.float_str upper Examples2.get_then_not_found
           Examples2.job_of_fields Examples.client "job-42" 0.01 0.1 1.5
           "COMPLETED" ["FAILED"; "CANCELED"] 1 Sim.start 1000 Sim.start
           {| Sim.clock := 1000.01; Sim.calls := 1 |}
           Examples.resp_not_found
           {| Sim.clock := 1000.01; Sim.calls := 2 |});
    [reflexivity | vm_compute; reflexivity | reflexivity | simpl; lia | lia].
Defined.
